(** * OraculoFantasy2: the packing codec and the submission loop of oracle.js

    A shallow embedding of [src/oracle.js].  The definitions come first:
    the JavaScript values and operators the script uses, [pack32] (hard
    checks, bit layout, hexadecimal rendering), then [sendPacked] and the main
    loop as explicit state passing over the module-level variables, with the
    network as an oracle.  Part one proves the properties of the codec, part
    two those of the pipeline. *)

From Stdlib Require Import ZArith List String Ascii Lia Bool QArith.
From Stdlib Require Import DecimalString.
Import ListNotations.

Local Open Scope string_scope.
Local Open Scope Z_scope.

(** ** JavaScript values *)

Module JS.

(** The values a field of a parsed JSON record can hold that the model
    covers: a missing field reads as [undefined]; [null], booleans and
    integer-valued numbers are kept, [Num z] standing for the double whose
    value is the integer [z].  Strings, nested values and numbers with a
    fractional part are outside the model. *)
Inductive value : Type :=
| Undefined
| Null
| Bool (b : bool)
| Num (z : Z).

(** Results of numeric operations: an integer or NaN. *)
Inductive number : Type :=
| NaN
| Fin (z : Z).

(** Thrown values.  [Error] is [new Error(msg)], [TypeError] is what the
    runtime throws on [BigInt(undefined)], [Rejected] is a rejected promise of
    the network client. *)
Inductive error : Type :=
| Error (msg : string)
| TypeError (msg : string)
| Rejected (msg : string).

Definition result (A : Type) : Type := (error + A)%type.

(** The [message] property of a thrown value. *)
Definition message (e : error) : string :=
  match e with
  | Error msg => msg
  | TypeError msg => msg
  | Rejected msg => msg
  end.

(** How many of [es] carry the message [m]. *)
Fixpoint count_message (m : string) (es : list error) : nat :=
  match es with
  | [] => O
  | e :: es' =>
      if String.eqb (message e) m then S (count_message m es')
      else count_message m es'
  end.

(** The scan of [mainError] in the retry package: [seen] errors are behind,
    [main] is the error whose message has occurred most often so far,
    [best] times; a later error with as many occurrences replaces it. *)
Fixpoint main_error_scan (seen rest : list error) (main : error) (best : nat)
    : error :=
  match rest with
  | [] => main
  | e :: rest' =>
      let count := S (count_message (message e) seen) in
      if (best <=? count)%nat
      then main_error_scan (seen ++ [e]) rest' e count
      else main_error_scan (seen ++ [e]) rest' main best
  end.

(** [op.mainError()] once the errors [es] and then [last] were recorded. *)
Definition main_error (es : list error) (last : error) : error :=
  main_error_scan [] (es ++ [last]) last O.

(** ToNumber *)
Definition to_number (v : value) : number :=
  match v with
  | Undefined => NaN
  | Null => Fin 0
  | Bool true => Fin 1
  | Bool false => Fin 0
  | Num z => Fin z
  end.

(** ToBoolean, as used by [if (v)] *)
Definition truthy (v : value) : bool :=
  match v with
  | Undefined => false
  | Null => false
  | Bool b => b
  | Num z => negb (z =? 0)
  end.

(** [a > b] on numbers: any comparison with NaN is false. *)
Definition num_gt (a b : number) : bool :=
  match a, b with
  | Fin x, Fin y => y <? x
  | _, _ => false
  end.

(** [v > k] for a field value and a numeric literal *)
Definition gt (v : value) (k : Z) : bool := num_gt (to_number v) (Fin k).

(** [v === undefined] *)
Definition is_undefined (v : value) : bool :=
  match v with
  | Undefined => true
  | _ => false
  end.

(** [Math.min(v, k)] *)
Definition math_min (v : value) (k : Z) : number :=
  match to_number v with
  | NaN => NaN
  | Fin z => Fin (Z.min z k)
  end.

(** The double nearest to [a / k], ties to even, for [a >= 0], [k > 0] and
    a quotient of at least 2^52, where every double is an integer. *)
Definition nearest_double_quotient (a k : Z) : Z :=
  let s := 2 ^ (Z.log2 (a / k) - 52) in
  let m := a / (k * s) in
  let r := a mod (k * s) in
  if 2 * r <? k * s then m * s
  else if k * s <? 2 * r then (m + 1) * s
  else if Z.even m then m * s else (m + 1) * s.

(** [Math.floor(v / k)] for a positive literal [k].  The division is that
    of doubles: below 2^52 the rounded quotient has the same floor as the
    exact one, which [Z.div] computes; from 2^52 on the rounded quotient is
    an integer already. *)
Definition floor_div (v : value) (k : Z) : number :=
  match to_number v with
  | NaN => NaN
  | Fin z =>
      if Z.abs z / k <? 2 ^ 52 then Fin (z / k)
      else Fin (Z.sgn z * nearest_double_quotient (Z.abs z) k)
  end.

(** ToInt32: NaN goes to 0, an integer wraps into [-2^31, 2^31). *)
Definition to_int32 (n : number) : Z :=
  match n with
  | NaN => 0
  | Fin z => (z + 2 ^ 31) mod 2 ^ 32 - 2 ^ 31
  end.

(** [n & k] *)
Definition bitand (n : number) (k : Z) : Z :=
  Z.land (to_int32 n) (to_int32 (Fin k)).

(** [BigInt(v)] *)
Definition to_bigint (v : value) : result Z :=
  match v with
  | Undefined => inl (TypeError "Cannot convert undefined to a BigInt")
  | Null => inl (TypeError "Cannot convert null to a BigInt")
  | Bool true => inr 1
  | Bool false => inr 0
  | Num z => inr z
  end.

(** Decimal rendering of an integer, as in a template literal. *)
Definition string_of_Z (z : Z) : string :=
  NilZero.string_of_int (Z.to_int z).

(** The double nearest to a non-negative integer, ties to even. *)
Definition nearest_double (x : Z) : Z :=
  if x <? 2 ^ 53 then x
  else
    let s := 2 ^ (Z.log2 x - 52) in
    let m := x / s in
    let r := x mod s in
    if 2 * r <? s then m * s
    else if s <? 2 * r then (m + 1) * s
    else if Z.even m then m * s else (m + 1) * s.

(** The [k]-digit decimal [s * 10^j] closest to the double [a] among those
    that read back as [a], if there is one. *)
Definition digits_candidate (a j : Z) : option Z :=
  let p := 10 ^ j in
  let lo := a / p in
  let hi := lo + 1 in
  let ok_lo := nearest_double (lo * p) =? a in
  let ok_hi := nearest_double (hi * p) =? a in
  if ok_lo && ok_hi then
    if a - lo * p <? hi * p - a then Some lo
    else if hi * p - a <? a - lo * p then Some hi
    else if Z.even lo then Some lo else Some hi
  else if ok_lo then Some lo
  else if ok_hi then Some hi
  else None.

(** The shortest digits [s] and exponent [j] with [s * 10^j] reading back
    as [a], trying [j] downwards from the position of the leading digit. *)
Fixpoint shortest_digits (fuel : nat) (a j : Z) : Z * Z :=
  match fuel with
  | O => (a, 0)
  | S fuel' =>
      if j <=? 0 then (a, 0)
      else
        match digits_candidate a j with
        | Some s => (s, j)
        | None => shortest_digits fuel' a (j - 1)
        end
  end.

(** Trailing zeros of the digits moved into the exponent. *)
Fixpoint strip_zeros (fuel : nat) (s j : Z) : Z * Z :=
  match fuel with
  | O => (s, j)
  | S fuel' =>
      if (s mod 10 =? 0) && (0 <? s) then strip_zeros fuel' (s / 10) (j + 1)
      else (s, j)
  end.

Fixpoint zeros (k : nat) : string :=
  match k with
  | O => ""
  | S k' => String "0" (zeros k')
  end.

(** Number toString on a non-negative integer-valued double: every digit
    below 2^53; above, the shortest digits that read back as the same double,
    padded with zeros up to 21 places and in exponent notation beyond. *)
Definition nonneg_to_string (a : Z) : string :=
  if a <? 2 ^ 53 then string_of_Z a
  else
    let n := Z.of_nat (String.length (string_of_Z a)) in
    let (s0, j0) := shortest_digits 20 a (n - 1) in
    let (s, j) := strip_zeros 400 s0 j0 in
    let ds := string_of_Z s in
    let pos := Z.of_nat (String.length ds) + j in
    if pos <=? 21 then ds ++ zeros (Z.to_nat j)
    else
      match ds with
      | EmptyString => ds
      | String d EmptyString => String d ("e+" ++ string_of_Z (pos - 1))
      | String d rest =>
          String d ("." ++ rest ++ "e+" ++ string_of_Z (pos - 1))
      end.

(** ToString, as in a template literal *)
Definition to_string (v : value) : string :=
  match v with
  | Undefined => "undefined"
  | Null => "null"
  | Bool true => "true"
  | Bool false => "false"
  | Num z =>
      if z <? 0 then String "-" (nonneg_to_string (- z))
      else nonneg_to_string z
  end.

(** One hexadecimal digit, lowercase. *)
Definition hex_digit (d : Z) : ascii :=
  match d with
  | 0 => "0" | 1 => "1" | 2 => "2" | 3 => "3"
  | 4 => "4" | 5 => "5" | 6 => "6" | 7 => "7"
  | 8 => "8" | 9 => "9" | 10 => "a" | 11 => "b"
  | 12 => "c" | 13 => "d" | 14 => "e" | _ => "f"
  end%char.

(** Digits of a non-negative integer in base 16, most significant first, in
    front of [acc]; [fuel] bounds the number of digits. *)
Fixpoint hex_digits (fuel : nat) (n : Z) (acc : string) : string :=
  match fuel with
  | O => acc
  | S fuel' =>
      let acc' := String (hex_digit (n mod 16)) acc in
      if n / 16 =? 0 then acc' else hex_digits fuel' (n / 16) acc'
  end.

(** [n.toString(16)] on a BigInt *)
Definition bigint_to_string16 (n : Z) : string :=
  if n <? 0
  then String "-"%char (hex_digits (S (Z.to_nat (Z.log2 (- n)))) (- n) "")
  else hex_digits (S (Z.to_nat (Z.log2 n))) n "".

Fixpoint repeat_char (c : ascii) (k : nat) (s : string) : string :=
  match k with
  | O => s
  | S k' => String c (repeat_char c k' s)
  end.

(** [s.padStart(len, c)] with a one-character filler *)
Definition pad_start (len : nat) (c : ascii) (s : string) : string :=
  repeat_char c (len - String.length s) s.

End JS.

(** ** pack32 *)

(** A row of stats.json. *)
Record PlayerStat : Type := mkPlayerStat {
  id : JS.value;
  goles : JS.value;
  asistencias : JS.value;
  penaltisParados : JS.value;
  paradas : JS.value;
  despejes : JS.value;
  minutosJugados : JS.value;
  tarjetasAmarillas : JS.value;
  tarjetasRojas : JS.value;
  porteriaCero : JS.value;
  ganoPartido : JS.value
}.

Definition throw {A : Type} (msg : string) : JS.result A :=
  inl (JS.Error msg).

(** The hard validations of [pack32], in source order. *)
Definition pack32_checks (p : PlayerStat) : JS.result unit :=
  if JS.gt (goles p) 8 then throw ("goles>8 id=" ++ JS.to_string (id p))
  else if JS.gt (asistencias p) 8
  then throw ("asis>8 id=" ++ JS.to_string (id p))
  else if JS.gt (penaltisParados p) 4
  then throw ("penaltisParados>4 id=" ++ JS.to_string (id p))
  else if JS.gt (paradas p) 32 || JS.gt (despejes p) 64
  then throw ("paradas/despejes fuera de rango id=" ++ JS.to_string (id p))
  else if JS.gt (minutosJugados p) 90
  then throw ("minutos>90 id=" ++ JS.to_string (id p))
  else if JS.gt (tarjetasAmarillas p) 2 || JS.gt (tarjetasRojas p) 1
  then throw ("tarjetas fuera de rango id=" ++ JS.to_string (id p))
  else inr tt.

(** The value of [d] when [pack32] reaches its [return]. *)
Definition pack32_word (p : PlayerStat) : Z :=
  let paradas' := JS.math_min (paradas p) 31 in
  let despejes' := JS.math_min (despejes p) 63 in
  let minutosQ := JS.floor_div (minutosJugados p) 3 in
  let d := JS.bitand (JS.to_number (goles p)) 15 in
  let d := Z.lor d (Z.shiftl (JS.bitand (JS.to_number (asistencias p)) 15) 4) in
  let d := Z.lor d (Z.shiftl (JS.bitand paradas' 31) 8) in
  let d := Z.lor d (Z.shiftl (JS.bitand (JS.to_number (penaltisParados p)) 7) 13) in
  let d := Z.lor d (Z.shiftl (JS.bitand despejes' 63) 16) in
  let d := Z.lor d (Z.shiftl (JS.bitand minutosQ 31) 22) in
  let d := Z.lor d (Z.shiftl (JS.bitand (JS.to_number (tarjetasAmarillas p)) 3) 27) in
  let d := Z.lor d (Z.shiftl (JS.bitand (JS.to_number (tarjetasRojas p)) 1) 29) in
  let d := if JS.truthy (porteriaCero p) then Z.lor d (Z.shiftl 1 30) else d in
  let d := if JS.truthy (ganoPartido p) then Z.lor d (Z.shiftl 1 31) else d in
  d.

(** ["0x" + d.toString(16).padStart(8, "0")] *)
Definition render_word (d : Z) : string :=
  "0x" ++ JS.pad_start 8 "0"%char (JS.bigint_to_string16 d).

Definition pack32 (p : PlayerStat) : JS.result string :=
  match pack32_checks p with
  | inl e => inl e
  | inr _ => inr (render_word (pack32_word p))
  end.

(** ** The submission pipeline *)

(** The request object [txData] built by [sendPacked]. *)
Record txData : Type := mkTxData {
  tx_from : string;
  tx_to : string;
  tx_gas : Z;
  tx_maxPriorityFeePerGas : string;
  tx_maxFeePerGas : string;
  tx_nonce : Z;
  tx_data : string
}.

(** What the script reads from outside: the account and the contract, the
    ABI encoder of [actualizarStatsPacked32] (FantasyLeagueABI.json is not
    part of the sources), and the network.  [getBlock k] answers the [k]-th
    call of [web3.eth.getBlock("pending")] with the block's [baseFeePerGas] or
    a rejection; [sendSignedTransaction k tx] answers the [k]-th signed
    submission with the receipt's [gasUsed] or a rejection; [elapsed k] is
    [Date.now() - t0] measured around it. *)
Record network : Type := mkNetwork {
  acct_address : string;
  league_address : string;
  encodeABI : JS.value -> string -> JS.result string;
  getBlock : nat -> JS.result JS.value;
  sendSignedTransaction : nat -> txData -> JS.result Z;
  elapsed : nat -> Z
}.

(** The figures computed after the loop, before [toFixed(0)] renders the two
    averages; a quotient by zero records has no finite value. *)
Record summary : Type := mkSummary {
  procesados : nat;
  gasTotal : Z;
  gasMedio : option Q;
  latenciaMedia : option Q
}.

(** Lines written with [console.log]. *)
Inductive line : Type :=
| LogTx (i : JS.value) (gas : Z) (dt : Z)
| LogRetry (i : JS.value) (attempt : nat)
| LogSummary (s : summary).

(** The module-level variables [totalGas] and [latencies], together with
    what the run has done to the outside: the number of pending-block
    queries, every request handed to [signTransaction] and
    [sendSignedTransaction] (oldest first), and the console. *)
Record state : Type := mkState {
  totalGas : Z;
  latencies : list Z;
  blockCalls : nat;
  sent : list txData;
  console : list line
}.

Definition initial_state : state := mkState 0 [] 0 [] [].

(** Computations that read and write [state] and may throw; a throw keeps
    the writes made before it. *)
Definition M (A : Type) : Type := state -> JS.result A * state.

Definition ret {A : Type} (a : A) : M A := fun st => (inr a, st).

Definition bind {A B : Type} (m : M A) (f : A -> M B) : M B :=
  fun st =>
    match m st with
    | (inl e, st') => (inl e, st')
    | (inr a, st') => f a st'
    end.

Definition lift {A : Type} (r : JS.result A) : M A := fun st => (r, st).

Definition log (l : line) : M unit :=
  fun st =>
    (inr tt,
     mkState (totalGas st) (latencies st) (blockCalls st) (sent st)
       (console st ++ [l])%list).

Notation "x <- m ;; k" := (bind m (fun x => k))
  (at level 61, m at next level, right associativity).
Notation "m ;;; k" := (bind m (fun _ => k))
  (at level 61, right associativity).

Definition GAS_LIMIT : Z := 120000.

(** [Number(a) / n] as the exact quotient; the rounding to a double is left
    out, and a division by zero records has no finite value. *)
Definition divide (a : Z) (n : nat) : option Q :=
  match n with
  | O => None
  | S _ => Some (Qmake a (Pos.of_nat n))
  end.

Section Pipeline.

Variable net : network.

(** The attempts of [retry(fn, { retries, onRetry })] of async-retry, the
    waiting between them left out, after the failed attempts whose errors
    are [errors]: [fn] runs until it returns, at most [1 + retries] more
    times; [onRetry] is called with the error and the number of the failed
    attempt before each new attempt; when the last attempt fails the promise
    is rejected with [mainError()], the error whose message was thrown most
    often (the latest such error on equal counts). *)
Fixpoint retry_loop {A : Type} (fn : M A)
    (onRetry : JS.error -> nat -> M unit) (retries : nat) (num : nat)
    (errors : list JS.error) : M A :=
  fun st =>
    match fn st with
    | (inr a, st') => (inr a, st')
    | (inl e, st') =>
        match retries with
        | O => (inl (JS.main_error errors e), st')
        | S retries' =>
            retry_loop fn onRetry retries' (S num) (errors ++ [e])%list
              (snd (onRetry e num st'))
        end
    end.

(** [retry(fn, { retries, onRetry })], entered at attempt [num]. *)
Definition retry {A : Type} (fn : M A) (onRetry : JS.error -> nat -> M unit)
    (retries : nat) (num : nat) : M A :=
  retry_loop fn onRetry retries num [].

(** [web3.eth.getBlock("pending")] followed by reading [baseFeePerGas] *)
Definition getPendingBaseFee : M JS.value :=
  fun st =>
    (getBlock net (blockCalls st),
     mkState (totalGas st) (latencies st) (S (blockCalls st)) (sent st)
       (console st)).

(** The callback given to [retry]: sign, send, account, log. *)
Definition attempt (tx : txData) (i : JS.value) : M Z :=
  fun st =>
    let k := List.length (sent st) in
    let sent' := (sent st ++ [tx])%list in
    match sendSignedTransaction net k tx with
    | inl e =>
        (inl e,
         mkState (totalGas st) (latencies st) (blockCalls st) sent'
           (console st))
    | inr gasUsed =>
        let dt := elapsed net k in
        (inr gasUsed,
         mkState (totalGas st + gasUsed) (latencies st ++ [dt])%list
           (blockCalls st) sent'
           (console st ++ [LogTx i gasUsed dt])%list)
    end.

(** The request [sendPacked] builds from the base fee it has just read. *)
Definition build_tx (encoded : string) (base nonce : Z) : txData :=
  let tip := 2 * 10 ^ 9 in
  let maxFee := base * 2 + tip in
  mkTxData (acct_address net) (league_address net) GAS_LIMIT
    (JS.string_of_Z tip) (JS.string_of_Z maxFee) nonce encoded.

Definition sendPacked (packedHex : string) (i : JS.value) (nonce : Z) : M Z :=
  encoded <- lift (encodeABI net i packedHex) ;;
  baseFeePerGas <- getPendingBaseFee ;;
  base <- lift (JS.to_bigint baseFeePerGas) ;;
  retry (attempt (build_tx encoded base nonce) i)
    (fun _ n => log (LogRetry i n)) 3 1.

(** The [for] loop of the main function, carrying the local [nonce];
    [nonce++] is evaluated when the call is made. *)
Fixpoint main_loop (stats : list PlayerStat) (nonce : Z) : M Z :=
  match stats with
  | [] => ret nonce
  | p :: rest =>
      if JS.is_undefined (goles p) then main_loop rest nonce
      else
        packed <- lift (pack32 p) ;;
        sendPacked packed (id p) nonce ;;;
        main_loop rest (nonce + 1)
  end.

Definition summarize (st : state) (n : nat) : summary :=
  mkSummary n (totalGas st) (divide (totalGas st) n)
    (divide (fold_left Z.add (latencies st) 0) n).

(** The main function after [getTransactionCount] has answered [nonce]. *)
Definition main (stats : list PlayerStat) (nonce : Z) : M unit :=
  main_loop stats nonce ;;;
  (fun st => log (LogSummary (summarize st (List.length stats))) st).

End Pipeline.

(** ** Reading a packed word *)

(** The [width] bits of [w] from bit [off] upwards. *)
Definition field (w off width : Z) : Z :=
  Z.land (Z.shiftr w off) (Z.ones width).

(** ["0x"] and the eight hexadecimal digits of a 32-bit word, most
    significant first. *)
Definition hex8 (w : Z) : string :=
  String "0" (String "x"
    (String (JS.hex_digit (w / 16 ^ 7 mod 16))
    (String (JS.hex_digit (w / 16 ^ 6 mod 16))
    (String (JS.hex_digit (w / 16 ^ 5 mod 16))
    (String (JS.hex_digit (w / 16 ^ 4 mod 16))
    (String (JS.hex_digit (w / 16 ^ 3 mod 16))
    (String (JS.hex_digit (w / 16 ^ 2 mod 16))
    (String (JS.hex_digit (w / 16 ^ 1 mod 16))
    (String (JS.hex_digit (w / 16 ^ 0 mod 16)) EmptyString))))))))).

(** Exactly [k] hexadecimal digits of [n] in front of [acc]. *)
Fixpoint fixed_digits (k : nat) (n : Z) (acc : string) : string :=
  match k with
  | O => acc
  | S k' => fixed_digits k' (n / 16) (String (JS.hex_digit (n mod 16)) acc)
  end.

Definition b2z (b : bool) : Z := if b then 1 else 0.

(** A digit or a lowercase letter [a]-[f]. *)
Definition lower_hex (c : ascii) : bool :=
  existsb (Ascii.eqb c) (list_ascii_of_string "0123456789abcdef").

(** The characters of [s] after its two-character prefix. *)
Definition digits_of (s : string) : list ascii :=
  list_ascii_of_string (String.substring 2 (String.length s - 2) s).

(** ** Vocabulary of the statements *)

(** The low [k] bits a numeric operand contributes. *)
Definition low (n : JS.number) (k : Z) : Z :=
  match n with
  | JS.NaN => 0
  | JS.Fin z => z mod 2 ^ k
  end.

(** [v] is a number above [lim]. *)
Definition exceeds (v : JS.value) (lim : Z) : Prop :=
  exists z : Z, JS.to_number v = JS.Fin z /\ lim < z.

(** Some field is above its hard limit. *)
Definition over_limit (p : PlayerStat) : Prop :=
  exceeds (goles p) 8 \/ exceeds (asistencias p) 8 \/
  exceeds (penaltisParados p) 4 \/ exceeds (paradas p) 32 \/
  exceeds (despejes p) 64 \/ exceeds (minutosJugados p) 90 \/
  exceeds (tarjetasAmarillas p) 2 \/ exceeds (tarjetasRojas p) 1.

(** The message of each [throw], with the fields its test reads. *)
Inductive rejection (p : PlayerStat) : JS.error -> Prop :=
| rej_goles :
    exceeds (goles p) 8 ->
    rejection p (JS.Error ("goles>8 id=" ++ JS.to_string (id p)))
| rej_asistencias :
    exceeds (asistencias p) 8 ->
    rejection p (JS.Error ("asis>8 id=" ++ JS.to_string (id p)))
| rej_penaltis :
    exceeds (penaltisParados p) 4 ->
    rejection p (JS.Error ("penaltisParados>4 id=" ++ JS.to_string (id p)))
| rej_paradas_despejes :
    exceeds (paradas p) 32 \/ exceeds (despejes p) 64 ->
    rejection p
      (JS.Error ("paradas/despejes fuera de rango id=" ++ JS.to_string (id p)))
| rej_minutos :
    exceeds (minutosJugados p) 90 ->
    rejection p (JS.Error ("minutos>90 id=" ++ JS.to_string (id p)))
| rej_tarjetas :
    exceeds (tarjetasAmarillas p) 2 \/ exceeds (tarjetasRojas p) 1 ->
    rejection p (JS.Error ("tarjetas fuera de rango id=" ++ JS.to_string (id p))).

(** Requests grouped by record: each request with the number of times it
    was handed to the network. *)
Definition expand (groups : list (txData * nat)) : list txData :=
  flat_map (fun g => repeat (fst g) (snd g)) groups.

(** The record has a [goles] field. *)
Definition present (p : PlayerStat) : bool :=
  negb (JS.is_undefined (goles p)).

Definition is_summary (l : line) : bool :=
  match l with
  | LogSummary _ => true
  | _ => false
  end.

(** [st'] extends the console of [st] with lines other than the summary. *)
Definition quiet (st st' : state) : Prop :=
  exists extra : list line,
    console st' = (console st ++ extra)%list /\
    forallb (fun l => negb (is_summary l)) extra = true.

(** The state once the pending block has been queried. *)
Definition after_fetch (st : state) : state :=
  mkState (totalGas st) (latencies st) (S (blockCalls st)) (sent st)
    (console st).

(** ** Sample networks and records *)

(** A stand-in for the ABI encoder. *)
Definition abi (i : JS.value) (h : string) : JS.result string :=
  inr ("actualizarStatsPacked32(" ++ JS.to_string i ++ "," ++ h ++ ")").

(** Base fee 7, 8, 9, ...; every submission whose index is 1 modulo 3 is
    rejected. *)
Definition flaky_net : network :=
  mkNetwork "0xA" "0xB" abi (fun k => inr (JS.Num (Z.of_nat k + 7)))
    (fun k _ => if (k mod 3 =? 1)%nat then inl (JS.Rejected "timeout")
                else inr 21000)
    (fun k => Z.of_nat k + 100).

(** Every submission is rejected. *)
Definition dead_net : network :=
  mkNetwork "0xA" "0xB" abi (fun _ => inr (JS.Num 7))
    (fun _ _ => inl (JS.Rejected "timeout")) (fun _ => 100).

(** The pending block has no [baseFeePerGas]. *)
Definition no_fee_net : network :=
  mkNetwork "0xA" "0xB" abi (fun _ => inr JS.Undefined)
    (fun _ _ => inr 21000) (fun _ => 100).

(** The pending block reports a negative base fee. *)
Definition negative_fee_net : network :=
  mkNetwork "0xA" "0xB" abi (fun _ => inr (JS.Num (-5)))
    (fun _ _ => inr 21000) (fun _ => 100).

Definition zero_stat : PlayerStat :=
  {| id := JS.Num 1; goles := JS.Num 0; asistencias := JS.Num 0;
     penaltisParados := JS.Num 0; paradas := JS.Num 0; despejes := JS.Num 0;
     minutosJugados := JS.Num 0; tarjetasAmarillas := JS.Num 0;
     tarjetasRojas := JS.Num 0; porteriaCero := JS.Bool false;
     ganoPartido := JS.Bool false |}.

Definition nine_goals : PlayerStat :=
  {| id := JS.Num 2; goles := JS.Num 9; asistencias := JS.Num 0;
     penaltisParados := JS.Num 0; paradas := JS.Num 0; despejes := JS.Num 0;
     minutosJugados := JS.Num 0; tarjetasAmarillas := JS.Num 0;
     tarjetasRojas := JS.Num 0; porteriaCero := JS.Bool false;
     ganoPartido := JS.Bool false |}.

Definition no_goles : PlayerStat :=
  {| id := JS.Num 3; goles := JS.Undefined; asistencias := JS.Num 1;
     penaltisParados := JS.Num 0; paradas := JS.Num 0; despejes := JS.Num 0;
     minutosJugados := JS.Num 0; tarjetasAmarillas := JS.Num 0;
     tarjetasRojas := JS.Num 0; porteriaCero := JS.Bool false;
     ganoPartido := JS.Bool false |}.

Definition only_goles : PlayerStat :=
  {| id := JS.Num 4; goles := JS.Num 3; asistencias := JS.Undefined;
     penaltisParados := JS.Undefined; paradas := JS.Undefined;
     despejes := JS.Undefined; minutosJugados := JS.Undefined;
     tarjetasAmarillas := JS.Undefined; tarjetasRojas := JS.Undefined;
     porteriaCero := JS.Undefined; ganoPartido := JS.Undefined |}.


(** The first record of the end-to-end scenario. *)
Definition full_match : PlayerStat :=
  {| id := JS.Num 1; goles := JS.Num 2; asistencias := JS.Num 1;
     penaltisParados := JS.Num 0; paradas := JS.Num 5; despejes := JS.Num 10;
     minutosJugados := JS.Num 90; tarjetasAmarillas := JS.Num 0;
     tarjetasRojas := JS.Num 0; porteriaCero := JS.Bool false;
     ganoPartido := JS.Bool true |}.

Definition negative_stat : PlayerStat :=
  {| id := JS.Num 7; goles := JS.Num (-1); asistencias := JS.Num (-3);
     penaltisParados := JS.Num 0; paradas := JS.Num (-1);
     despejes := JS.Num (-64); minutosJugados := JS.Num (-1);
     tarjetasAmarillas := JS.Num 0; tarjetasRojas := JS.Num (-2);
     porteriaCero := JS.Bool false; ganoPartido := JS.Bool false |}.

(** ** Vocabulary of the further properties *)

(** The value of a hexadecimal digit. *)
Definition hex_value (c : ascii) : Z :=
  match c with
  | "0" => 0 | "1" => 1 | "2" => 2 | "3" => 3
  | "4" => 4 | "5" => 5 | "6" => 6 | "7" => 7
  | "8" => 8 | "9" => 9 | "a" => 10 | "b" => 11
  | "c" => 12 | "d" => 13 | "e" => 14 | _ => 15
  end%char.

(** The number a string of hexadecimal digits denotes, read digit by digit
    with [hex_value]. *)
Definition hex_number (cs : list ascii) : Z :=
  fold_left (fun acc c => 16 * acc + hex_value c) cs 0.

(** An integer counter between 0 and [lim]. *)
Definition counter (v : JS.value) (lim : Z) : Prop :=
  exists z : Z, v = JS.Num z /\ 0 <= z <= lim.

(** A boolean flag. *)
Definition flag (v : JS.value) : Prop := exists b : bool, v = JS.Bool b.

(** A record whose fields are all present and inside their documented
    ranges. *)
Definition in_domain (p : PlayerStat) : Prop :=
  counter (goles p) 8 /\ counter (asistencias p) 8 /\
  counter (penaltisParados p) 4 /\ counter (paradas p) 32 /\
  counter (despejes p) 64 /\ counter (minutosJugados p) 90 /\
  counter (tarjetasAmarillas p) 2 /\ counter (tarjetasRojas p) 1 /\
  flag (porteriaCero p) /\ flag (ganoPartido p).

(** Two records agree on everything [pack32] keeps. *)
Definition same_packed_content (p q : PlayerStat) : Prop :=
  goles p = goles q /\ asistencias p = asistencias q /\
  penaltisParados p = penaltisParados q /\
  JS.math_min (paradas p) 31 = JS.math_min (paradas q) 31 /\
  JS.math_min (despejes p) 63 = JS.math_min (despejes q) 63 /\
  JS.floor_div (minutosJugados p) 3 = JS.floor_div (minutosJugados q) 3 /\
  tarjetasAmarillas p = tarjetasAmarillas q /\
  tarjetasRojas p = tarjetasRojas q /\
  porteriaCero p = porteriaCero q /\ ganoPartido p = ganoPartido q.

(** Two records read the same through the coercions [pack32] applies. *)
Definition same_coerced (p q : PlayerStat) : Prop :=
  JS.to_number (goles p) = JS.to_number (goles q) /\
  JS.to_number (asistencias p) = JS.to_number (asistencias q) /\
  JS.to_number (penaltisParados p) = JS.to_number (penaltisParados q) /\
  JS.to_number (paradas p) = JS.to_number (paradas q) /\
  JS.to_number (despejes p) = JS.to_number (despejes q) /\
  JS.to_number (minutosJugados p) = JS.to_number (minutosJugados q) /\
  JS.to_number (tarjetasAmarillas p) = JS.to_number (tarjetasAmarillas q) /\
  JS.to_number (tarjetasRojas p) = JS.to_number (tarjetasRojas q) /\
  JS.truthy (porteriaCero p) = JS.truthy (porteriaCero q) /\
  JS.truthy (ganoPartido p) = JS.truthy (ganoPartido q).

(** Gas summed over the per-record lines of a piece of console. *)
Fixpoint gas_logged (ls : list line) : Z :=
  match ls with
  | [] => 0
  | LogTx _ gas _ :: ls' => gas + gas_logged ls'
  | _ :: ls' => gas_logged ls'
  end.

(** Latencies of the per-record lines of a piece of console, in order. *)
Fixpoint latencies_logged (ls : list line) : list Z :=
  match ls with
  | [] => []
  | LogTx _ _ dt :: ls' => dt :: latencies_logged ls'
  | _ :: ls' => latencies_logged ls'
  end.

Definition is_tx (l : line) : bool :=
  match l with
  | LogTx _ _ _ => true
  | _ => false
  end.

(** The number of per-record lines. *)
Definition count_tx (ls : list line) : nat := List.length (filter is_tx ls).

(** Between [st] and [st'] the console has grown by [extra], and the
    metrics by what the per-record lines of [extra] show. *)
Definition accounted (st st' : state) (extra : list line) : Prop :=
  console st' = (console st ++ extra)%list /\
  totalGas st' = totalGas st + gas_logged extra /\
  latencies st' = (latencies st ++ latencies_logged extra)%list.

(** The lines [reintento id i (n)] for [n] from [num], [k] of them. *)
Definition retry_lines (i : JS.value) (num k : nat) : list line :=
  map (LogRetry i) (seq num k).

(** The request [g] sends, [snd g] times, is the one of record [p]: its
    payload encodes the id and the packed word of [p]. *)
Definition carries (net : network) (g : txData * nat) (p : PlayerStat) : Prop :=
  exists packed : string,
    pack32 p = inr packed /\
    encodeABI net (id p) packed = inr (tx_data (fst g)) /\
    tx_from (fst g) = acct_address net /\
    tx_to (fst g) = league_address net /\
    (1 <= snd g <= 4)%nat.

(** A record stored with null, booleans and numeric flags. *)
Definition loose_stat : PlayerStat :=
  {| id := JS.Num 1; goles := JS.Null; asistencias := JS.Bool true;
     penaltisParados := JS.Bool false; paradas := JS.Num 5;
     despejes := JS.Null; minutosJugados := JS.Num 45;
     tarjetasAmarillas := JS.Num 1; tarjetasRojas := JS.Null;
     porteriaCero := JS.Num 1; ganoPartido := JS.Null |}.

(** The same record with numbers and booleans. *)
Definition strict_stat : PlayerStat :=
  {| id := JS.Num 1; goles := JS.Num 0; asistencias := JS.Num 1;
     penaltisParados := JS.Num 0; paradas := JS.Num 5;
     despejes := JS.Num 0; minutosJugados := JS.Num 45;
     tarjetasAmarillas := JS.Num 1; tarjetasRojas := JS.Num 0;
     porteriaCero := JS.Bool true; ganoPartido := JS.Bool false |}.

(** A record at the clamps, and the record it is stored as. *)
Definition maxed_stat : PlayerStat :=
  {| id := JS.Num 9; goles := JS.Num 8; asistencias := JS.Num 8;
     penaltisParados := JS.Num 4; paradas := JS.Num 32;
     despejes := JS.Num 64; minutosJugados := JS.Num 89;
     tarjetasAmarillas := JS.Num 2; tarjetasRojas := JS.Num 1;
     porteriaCero := JS.Bool true; ganoPartido := JS.Bool true |}.

Definition capped_stat : PlayerStat :=
  {| id := JS.Num 9; goles := JS.Num 8; asistencias := JS.Num 8;
     penaltisParados := JS.Num 4; paradas := JS.Num 31;
     despejes := JS.Num 63; minutosJugados := JS.Num 87;
     tarjetasAmarillas := JS.Num 2; tarjetasRojas := JS.Num 1;
     porteriaCero := JS.Bool true; ganoPartido := JS.Bool true |}.

(** The first two submissions are rejected, the others accepted. *)
Definition slow_start_net : network :=
  mkNetwork "0xA" "0xB" abi (fun _ => inr (JS.Num 7))
    (fun k _ => if (k <? 2)%nat then inl (JS.Rejected "timeout")
                else inr 21000)
    (fun k => Z.of_nat k + 100).



(** * Part one: the codec *)

Example pack32_full_match : pack32 full_match = inr "0x878a0512".
Proof. reflexivity. Qed.

Example pack32_nine_goals : pack32 nine_goals = inl (JS.Error "goles>8 id=2").
Proof. reflexivity. Qed.

Example bigint_to_string16_samples :
  JS.bigint_to_string16 0 = "0" /\
  JS.bigint_to_string16 255 = "ff" /\
  JS.bigint_to_string16 (2 ^ 32) = "100000000" /\
  JS.pad_start 8 "0" "ff" = "000000ff".
Proof. repeat split. Qed.

Lemma lor_shiftl_add (a b n : Z) :
  0 <= n -> 0 <= a < 2 ^ n -> Z.lor a (Z.shiftl b n) = a + b * 2 ^ n.
Proof.
  intros Hn Ha.
  assert (Hdisj : Z.land a (Z.shiftl b n) = 0).
  { apply Z.bits_inj'. intros i Hi.
    rewrite Z.land_spec, Z.bits_0.
    destruct (Z.lt_ge_cases i n) as [Hlt | Hge].
    - rewrite Z.shiftl_spec_low by assumption. apply andb_false_r.
    - destruct (Z.eq_dec a 0) as [-> | Hnz].
      + now rewrite Z.bits_0.
      + rewrite (Z.bits_above_log2 a i).
        * reflexivity.
        * lia.
        * apply Z.lt_le_trans with n; [| assumption].
          apply Z.log2_lt_pow2; lia. }
  rewrite <- Z.lxor_lor by assumption.
  rewrite <- Z.add_nocarry_lxor by assumption.
  now rewrite Z.shiftl_mul_pow2.
Qed.

Lemma to_int32_small (z : Z) :
  - 2 ^ 31 <= z < 2 ^ 31 -> JS.to_int32 (JS.Fin z) = z.
Proof.
  intros Hz. unfold JS.to_int32.
  rewrite Z.mod_small; lia.
Qed.

Lemma to_int32_mod (n : JS.number) (k : Z) :
  0 <= k <= 32 ->
  JS.to_int32 n mod 2 ^ k =
  match n with JS.NaN => 0 | JS.Fin z => z mod 2 ^ k end.
Proof.
  intros Hk. destruct n as [| z]; unfold JS.to_int32.
  - apply Z.mod_0_l. apply Z.pow_nonzero; lia.
  - assert (Hpos : 0 < 2 ^ k) by (apply Z.pow_pos_nonneg; lia).
    assert (Hsplit : 2 ^ 32 = 2 ^ (32 - k) * 2 ^ k).
    { rewrite <- Z.pow_add_r by lia. f_equal. lia. }
    assert (H31 : 2 ^ 31 = 2147483648) by reflexivity.
    pose proof (Z.div_mod (z + 2 ^ 31) (2 ^ 32) ltac:(lia)) as Hdm.
    replace ((z + 2 ^ 31) mod 2 ^ 32 - 2 ^ 31)
      with (z + (- ((z + 2 ^ 31) / 2 ^ 32) * 2 ^ (32 - k)) * 2 ^ k).
    + apply Z.mod_add. lia.
    + rewrite Hsplit in Hdm at 1. lia.
Qed.

(** [n & (2^k - 1)] keeps the low [k] bits of the integer, or 0 on NaN. *)
Lemma bitand_ones (n : JS.number) (k : Z) :
  0 <= k <= 31 ->
  JS.bitand n (Z.ones k) =
  match n with JS.NaN => 0 | JS.Fin z => z mod 2 ^ k end.
Proof.
  intros Hk. unfold JS.bitand.
  assert (Hones : 0 <= Z.ones k < 2 ^ 31).
  { rewrite Z.ones_equiv.
    assert (0 < 2 ^ k) by (apply Z.pow_pos_nonneg; lia).
    assert (2 ^ k <= 2 ^ 31) by (apply Z.pow_le_mono_r; lia).
    lia. }
  rewrite (to_int32_small (Z.ones k)) by lia.
  rewrite Z.land_ones by lia.
  apply to_int32_mod. lia.
Qed.

Lemma field_div_mod (w off width : Z) :
  0 <= off -> 0 <= width -> field w off width = (w / 2 ^ off) mod 2 ^ width.
Proof.
  intros Ho Hw. unfold field.
  now rewrite Z.land_ones, Z.shiftr_div_pow2.
Qed.

(** ** The word as a sum of its fields *)

Lemma low_range (n : JS.number) (k : Z) : 0 <= k -> 0 <= low n k < 2 ^ k.
Proof.
  intros Hk. assert (0 < 2 ^ k) by (apply Z.pow_pos_nonneg; lia).
  destruct n; simpl; [lia | apply Z.mod_pos_bound; assumption].
Qed.

Lemma low_small (z k : Z) : 0 <= z < 2 ^ k -> low (JS.Fin z) k = z.
Proof. intros Hz. simpl. now apply Z.mod_small. Qed.

Lemma bitand_mask (n : JS.number) (mask k : Z) :
  mask = Z.ones k -> 0 <= k <= 31 -> JS.bitand n mask = low n k.
Proof. intros -> Hk. now apply bitand_ones. Qed.

Lemma flag_lor (b : bool) (d n : Z) :
  (if b then Z.lor d (Z.shiftl 1 n) else d) = Z.lor d (Z.shiftl (b2z b) n).
Proof.
  destruct b; simpl b2z; [reflexivity |].
  now rewrite Z.shiftl_0_l, Z.lor_0_r.
Qed.

Lemma b2z_range (b : bool) : 0 <= b2z b < 2 ^ 1.
Proof. destruct b; simpl; lia. Qed.

Lemma pack32_word_sum (p : PlayerStat) :
  pack32_word p =
    low (JS.to_number (goles p)) 4
    + low (JS.to_number (asistencias p)) 4 * 2 ^ 4
    + low (JS.math_min (paradas p) 31) 5 * 2 ^ 8
    + low (JS.to_number (penaltisParados p)) 3 * 2 ^ 13
    + low (JS.math_min (despejes p) 63) 6 * 2 ^ 16
    + low (JS.floor_div (minutosJugados p) 3) 5 * 2 ^ 22
    + low (JS.to_number (tarjetasAmarillas p)) 2 * 2 ^ 27
    + low (JS.to_number (tarjetasRojas p)) 1 * 2 ^ 29
    + b2z (JS.truthy (porteriaCero p)) * 2 ^ 30
    + b2z (JS.truthy (ganoPartido p)) * 2 ^ 31.
Proof.
  unfold pack32_word. cbv zeta.
  rewrite !flag_lor.
  rewrite (bitand_mask (JS.to_number (goles p)) 15 4) by (reflexivity || lia).
  rewrite (bitand_mask (JS.to_number (asistencias p)) 15 4)
    by (reflexivity || lia).
  rewrite (bitand_mask (JS.math_min (paradas p) 31) 31 5)
    by (reflexivity || lia).
  rewrite (bitand_mask (JS.to_number (penaltisParados p)) 7 3)
    by (reflexivity || lia).
  rewrite (bitand_mask (JS.math_min (despejes p) 63) 63 6)
    by (reflexivity || lia).
  rewrite (bitand_mask (JS.floor_div (minutosJugados p) 3) 31 5)
    by (reflexivity || lia).
  rewrite (bitand_mask (JS.to_number (tarjetasAmarillas p)) 3 2)
    by (reflexivity || lia).
  rewrite (bitand_mask (JS.to_number (tarjetasRojas p)) 1 1)
    by (reflexivity || lia).
  pose proof (low_range (JS.to_number (goles p)) 4 ltac:(lia)) as H0.
  pose proof (low_range (JS.to_number (asistencias p)) 4 ltac:(lia)) as H1.
  pose proof (low_range (JS.math_min (paradas p) 31) 5 ltac:(lia)) as H2.
  pose proof (low_range (JS.to_number (penaltisParados p)) 3 ltac:(lia)) as H3.
  pose proof (low_range (JS.math_min (despejes p) 63) 6 ltac:(lia)) as H4.
  pose proof (low_range (JS.floor_div (minutosJugados p) 3) 5 ltac:(lia)) as H5.
  pose proof (low_range (JS.to_number (tarjetasAmarillas p)) 2 ltac:(lia))
    as H6.
  pose proof (low_range (JS.to_number (tarjetasRojas p)) 1 ltac:(lia)) as H7.
  pose proof (b2z_range (JS.truthy (porteriaCero p))) as H8.
  pose proof (b2z_range (JS.truthy (ganoPartido p))) as H9.
  generalize dependent (low (JS.to_number (goles p)) 4).
  generalize dependent (low (JS.to_number (asistencias p)) 4).
  generalize dependent (low (JS.math_min (paradas p) 31) 5).
  generalize dependent (low (JS.to_number (penaltisParados p)) 3).
  generalize dependent (low (JS.math_min (despejes p) 63) 6).
  generalize dependent (low (JS.floor_div (minutosJugados p) 3) 5).
  generalize dependent (low (JS.to_number (tarjetasAmarillas p)) 2).
  generalize dependent (low (JS.to_number (tarjetasRojas p)) 1).
  generalize dependent (b2z (JS.truthy (porteriaCero p))).
  generalize dependent (b2z (JS.truthy (ganoPartido p))).
  intros m9 H9 m8 H8 m7 H7 m6 H6 m5 H5 m4 H4 m3 H3 m2 H2 m1 H1 m0 H0.
  rewrite (lor_shiftl_add m0 m1 4) by lia.
  rewrite (lor_shiftl_add _ m2 8) by lia.
  rewrite (lor_shiftl_add _ m3 13) by lia.
  rewrite (lor_shiftl_add _ m4 16) by lia.
  rewrite (lor_shiftl_add _ m5 22) by lia.
  rewrite (lor_shiftl_add _ m6 27) by lia.
  rewrite (lor_shiftl_add _ m7 29) by lia.
  rewrite (lor_shiftl_add _ m8 30) by lia.
  rewrite (lor_shiftl_add _ m9 31) by lia.
  reflexivity.
Qed.

Lemma fields_of_sum (m0 m1 m2 m3 m4 m5 m6 m7 m8 m9 : Z) :
  0 <= m0 < 2 ^ 4 -> 0 <= m1 < 2 ^ 4 -> 0 <= m2 < 2 ^ 5 -> 0 <= m3 < 2 ^ 3 ->
  0 <= m4 < 2 ^ 6 -> 0 <= m5 < 2 ^ 5 -> 0 <= m6 < 2 ^ 2 -> 0 <= m7 < 2 ^ 1 ->
  0 <= m8 < 2 ^ 1 -> 0 <= m9 < 2 ^ 1 ->
  let w := m0 + m1 * 2 ^ 4 + m2 * 2 ^ 8 + m3 * 2 ^ 13 + m4 * 2 ^ 16
           + m5 * 2 ^ 22 + m6 * 2 ^ 27 + m7 * 2 ^ 29 + m8 * 2 ^ 30
           + m9 * 2 ^ 31 in
  0 <= w < 2 ^ 32 /\
  field w 0 4 = m0 /\ field w 4 4 = m1 /\ field w 8 5 = m2 /\
  field w 13 3 = m3 /\ field w 16 6 = m4 /\ field w 22 5 = m5 /\
  field w 27 2 = m6 /\ field w 29 1 = m7 /\ field w 30 1 = m8 /\
  field w 31 1 = m9.
Proof.
  intros H0 H1 H2 H3 H4 H5 H6 H7 H8 H9 w.
  rewrite !field_div_mod by lia.
  subst w.
  repeat split; try lia; Z.div_mod_to_equations; lia.
Qed.

(** ** Rendering *)

Lemma fixed_digits_length (k : nat) (n : Z) (acc : string) :
  String.length (fixed_digits k n acc) = (k + String.length acc)%nat.
Proof.
  revert n acc. induction k as [| k IH]; intros n acc; simpl.
  - reflexivity.
  - rewrite IH. simpl. lia.
Qed.

Lemma repeat_char_shift (c : ascii) (k : nat) (s : string) :
  JS.repeat_char c k (String c s) = String c (JS.repeat_char c k s).
Proof.
  induction k as [| k IH]; simpl; [reflexivity | now rewrite IH].
Qed.

Lemma fixed_digits_zero (k : nat) (acc : string) :
  fixed_digits k 0 acc = JS.repeat_char "0" k acc.
Proof.
  revert acc. induction k as [| k IH]; intros acc; simpl.
  - reflexivity.
  - change (0 / 16) with 0. rewrite IH. apply repeat_char_shift.
Qed.

(** Digits beyond the significant ones are the zeros [padStart] adds. *)
Lemma fixed_digits_pad (j k : nat) (n : Z) (acc : string) :
  0 <= n < 16 ^ Z.of_nat j ->
  fixed_digits (k + j) n acc = JS.repeat_char "0" k (fixed_digits j n acc).
Proof.
  revert n acc. induction j as [| j IH]; intros n acc Hn.
  - change (16 ^ Z.of_nat 0) with 1 in Hn.
    assert (n = 0) as -> by lia.
    rewrite Nat.add_0_r. simpl. apply fixed_digits_zero.
  - rewrite Nat.add_succ_r. simpl. apply IH.
    rewrite Nat2Z.inj_succ, Z.pow_succ_r in Hn by lia.
    split.
    + apply Z.div_pos; lia.
    + apply Z.div_lt_upper_bound; lia.
Qed.

(** With enough fuel [hex_digits] writes the significant digits only. *)
Lemma hex_digits_fixed (fuel : nat) (n : Z) (acc : string) :
  (1 <= fuel)%nat ->
  0 <= n < 16 ^ Z.of_nat fuel ->
  exists j : nat,
    (1 <= j <= fuel)%nat /\
    (j = 1%nat \/ 16 ^ (Z.of_nat j - 1) <= n) /\
    n < 16 ^ Z.of_nat j /\
    JS.hex_digits fuel n acc = fixed_digits j n acc.
Proof.
  revert n acc. induction fuel as [| fuel IH]; intros n acc Hfuel Hn.
  - lia.
  - rewrite Nat2Z.inj_succ, Z.pow_succ_r in Hn by lia.
    simpl JS.hex_digits.
    destruct (Z.eqb_spec (n / 16) 0) as [Hq | Hq].
    + exists 1%nat. split; [lia | split; [| split]].
      * left. reflexivity.
      * change (16 ^ Z.of_nat 1) with 16.
        pose proof (Z.div_mod n 16 ltac:(lia)).
        pose proof (Z.mod_pos_bound n 16 ltac:(lia)). lia.
      * reflexivity.
    + assert (Hq' : 0 <= n / 16 < 16 ^ Z.of_nat fuel).
      { split; [apply Z.div_pos; lia | apply Z.div_lt_upper_bound; lia]. }
      assert (Hfuel' : (1 <= fuel)%nat).
      { destruct fuel; [| lia].
        change (16 ^ Z.of_nat 0) with 1 in Hq'. lia. }
      destruct (IH (n / 16) (String (JS.hex_digit (n mod 16)) acc) Hfuel' Hq')
        as (j & Hj & Hlow & Hhigh & Heq).
      exists (S j). split; [lia | split; [| split]].
      * right. rewrite Nat2Z.inj_succ.
        replace (Z.succ (Z.of_nat j) - 1) with (Z.succ (Z.of_nat j - 1)) by lia.
        rewrite Z.pow_succ_r by lia.
        pose proof (Z.div_mod n 16 ltac:(lia)).
        pose proof (Z.mod_pos_bound n 16 ltac:(lia)).
        destruct Hlow as [-> | Hlow].
        -- change (16 ^ (Z.of_nat 1 - 1)) with 1. lia.
        -- lia.
      * rewrite Nat2Z.inj_succ, Z.pow_succ_r by lia.
        pose proof (Z.div_mod n 16 ltac:(lia)).
        pose proof (Z.mod_pos_bound n 16 ltac:(lia)). lia.
      * exact Heq.
Qed.

Lemma fixed_digits_8 (w : Z) :
  ("0x" ++ fixed_digits 8 w "")%string = hex8 w.
Proof.
  unfold hex8. simpl fixed_digits. simpl append.
  rewrite !Z.div_div by lia.
  rewrite Z.div_1_r.
  reflexivity.
Qed.

Lemma render_word_hex8 (w : Z) :
  0 <= w < 2 ^ 32 -> render_word w = hex8 w.
Proof.
  intros Hw. unfold render_word, JS.bigint_to_string16.
  destruct (Z.ltb_spec w 0) as [Hneg | _]; [lia |].
  set (fuel := S (Z.to_nat (Z.log2 w))).
  assert (Hfuel : 0 <= w < 16 ^ Z.of_nat fuel).
  { split; [lia |].
    subst fuel. rewrite Nat2Z.inj_succ, Z2Nat.id by apply Z.log2_nonneg.
    apply Z.lt_le_trans with (2 ^ Z.succ (Z.log2 w)).
    - destruct (Z.eq_dec w 0) as [-> | Hnz]; [reflexivity |].
      apply Z.log2_spec. lia.
    - apply Z.pow_le_mono_l. pose proof (Z.log2_nonneg w). lia. }
  destruct (hex_digits_fixed fuel w "" ltac:(subst fuel; lia) Hfuel)
    as (j & Hj & Hlow & Hhigh & ->).
  assert (Hj8 : (j <= 8)%nat).
  { destruct Hlow as [-> | Hlow]; [lia |].
    assert (Hlt : 16 ^ (Z.of_nat j - 1) < 16 ^ 8).
    { change (16 ^ 8) with (2 ^ 32). lia. }
    apply Z.pow_lt_mono_r_iff in Hlt; lia. }
  unfold JS.pad_start. rewrite fixed_digits_length. simpl String.length.
  rewrite Nat.add_0_r.
  rewrite <- fixed_digits_pad by lia.
  replace (8 - j + j)%nat with 8%nat by lia.
  apply fixed_digits_8.
Qed.

(** ** The hard checks *)

Lemma gt_true_iff (v : JS.value) (lim : Z) :
  JS.gt v lim = true <-> exceeds v lim.
Proof.
  unfold JS.gt, exceeds, JS.num_gt.
  destruct (JS.to_number v) as [| z].
  - split; [discriminate | intros (z & Hz & _); discriminate].
  - rewrite Z.ltb_lt. split.
    + intros Hlt. now exists z.
    + intros (z' & Hz & Hlt). now injection Hz as ->.
Qed.

Lemma gt_false_iff (v : JS.value) (lim : Z) :
  JS.gt v lim = false <-> ~ exceeds v lim.
Proof.
  rewrite <- gt_true_iff. destruct (JS.gt v lim); split; congruence.
Qed.

Lemma rejection_over_limit (p : PlayerStat) (e : JS.error) :
  rejection p e -> over_limit p.
Proof. unfold over_limit. destruct 1; tauto. Qed.

Lemma pack32_checks_spec (p : PlayerStat) :
  match pack32_checks p with
  | inl e => rejection p e
  | inr _ => ~ over_limit p
  end.
Proof.
  unfold pack32_checks, over_limit.
  destruct (JS.gt (goles p) 8) eqn:H1.
  { apply rej_goles. now apply gt_true_iff. }
  destruct (JS.gt (asistencias p) 8) eqn:H2.
  { apply rej_asistencias. now apply gt_true_iff. }
  destruct (JS.gt (penaltisParados p) 4) eqn:H3.
  { apply rej_penaltis. now apply gt_true_iff. }
  destruct (JS.gt (paradas p) 32) eqn:H4.
  { apply rej_paradas_despejes. left. now apply gt_true_iff. }
  destruct (JS.gt (despejes p) 64) eqn:H5.
  { apply rej_paradas_despejes. right. now apply gt_true_iff. }
  destruct (JS.gt (minutosJugados p) 90) eqn:H6.
  { apply rej_minutos. now apply gt_true_iff. }
  destruct (JS.gt (tarjetasAmarillas p) 2) eqn:H7.
  { apply rej_tarjetas. left. now apply gt_true_iff. }
  destruct (JS.gt (tarjetasRojas p) 1) eqn:H8.
  { apply rej_tarjetas. right. now apply gt_true_iff. }
  simpl. apply gt_false_iff in H1, H2, H3, H4, H5, H6, H7, H8. tauto.
Qed.

Lemma pack32_word_range (p : PlayerStat) : 0 <= pack32_word p < 2 ^ 32.
Proof.
  rewrite pack32_word_sum.
  apply fields_of_sum;
    solve [apply low_range; lia | apply b2z_range].
Qed.

(** A record within the limits is packed, and the string is the word. *)
Lemma pack32_ok (p : PlayerStat) :
  ~ over_limit p -> pack32 p = inr (hex8 (pack32_word p)).
Proof.
  intros Hlim. unfold pack32.
  pose proof (pack32_checks_spec p) as Hc.
  destruct (pack32_checks p) as [e | []].
  - exfalso. apply Hlim. eapply rejection_over_limit. exact Hc.
  - f_equal. apply render_word_hex8. apply pack32_word_range.
Qed.

Lemma pack32_fields (p : PlayerStat) :
  let w := pack32_word p in
  field w 0 4 = low (JS.to_number (goles p)) 4 /\
  field w 4 4 = low (JS.to_number (asistencias p)) 4 /\
  field w 8 5 = low (JS.math_min (paradas p) 31) 5 /\
  field w 13 3 = low (JS.to_number (penaltisParados p)) 3 /\
  field w 16 6 = low (JS.math_min (despejes p) 63) 6 /\
  field w 22 5 = low (JS.floor_div (minutosJugados p) 3) 5 /\
  field w 27 2 = low (JS.to_number (tarjetasAmarillas p)) 2 /\
  field w 29 1 = low (JS.to_number (tarjetasRojas p)) 1 /\
  field w 30 1 = b2z (JS.truthy (porteriaCero p)) /\
  field w 31 1 = b2z (JS.truthy (ganoPartido p)).
Proof.
  intros w. subst w. rewrite pack32_word_sum.
  apply fields_of_sum;
    solve [apply low_range; lia | apply b2z_range].
Qed.

Lemma hex_digit_lower (d : Z) : lower_hex (JS.hex_digit d) = true.
Proof.
  destruct d as [| q | q]; try reflexivity.
  do 4 (try destruct q as [q | q |]; try reflexivity).
Qed.

Lemma hex8_shape (w : Z) :
  String.length (hex8 w) = 10%nat /\
  String.substring 0 2 (hex8 w) = "0x" /\
  forallb lower_hex (digits_of (hex8 w)) = true.
Proof.
  split; [reflexivity | split; [reflexivity |]].
  unfold digits_of, hex8.
  cbn [String.length Nat.sub String.substring list_ascii_of_string forallb].
  rewrite !hex_digit_lower. reflexivity.
Qed.

Lemma hex_value_digit (d : Z) : 0 <= d < 16 -> hex_value (JS.hex_digit d) = d.
Proof.
  intros Hd.
  assert (Hcases : d = 0 \/ d = 1 \/ d = 2 \/ d = 3 \/ d = 4 \/ d = 5 \/
                   d = 6 \/ d = 7 \/ d = 8 \/ d = 9 \/ d = 10 \/ d = 11 \/
                   d = 12 \/ d = 13 \/ d = 14 \/ d = 15) by lia.
  repeat (destruct Hcases as [-> | Hcases]; [reflexivity |]).
  subst d. reflexivity.
Qed.

(** Read back digit by digit, the rendering of a word is the word. *)
Lemma hex8_value (w : Z) :
  0 <= w < 2 ^ 32 -> hex_number (digits_of (hex8 w)) = w.
Proof.
  intros Hw. unfold digits_of, hex8, hex_number.
  cbn [String.length Nat.sub String.substring list_ascii_of_string fold_left].
  rewrite !hex_value_digit by (apply Z.mod_pos_bound; lia).
  change (16 ^ 7) with 268435456. change (16 ^ 6) with 16777216.
  change (16 ^ 5) with 1048576. change (16 ^ 4) with 65536.
  change (16 ^ 3) with 4096. change (16 ^ 2) with 256.
  change (16 ^ 1) with 16. change (16 ^ 0) with 1.
  change (2 ^ 32) with 4294967296 in Hw.
  Z.div_mod_to_equations. lia.
Qed.

Lemma floor_div_num (z k : Z) :
  0 < k -> Z.abs z < k * 2 ^ 52 -> JS.floor_div (JS.Num z) k = JS.Fin (z / k).
Proof.
  intros Hk Hz. unfold JS.floor_div. cbn [JS.to_number].
  destruct (Z.ltb_spec (Z.abs z / k) (2 ^ 52)) as [_ | Hge]; [reflexivity |].
  exfalso. apply (Z.div_lt_upper_bound (Z.abs z) k (2 ^ 52)) in Hz; lia.
Qed.

Lemma not_exceeds_num (z lim : Z) : ~ exceeds (JS.Num z) lim -> z <= lim.
Proof.
  intros Hn. destruct (Z.le_gt_cases z lim) as [Hle | Hgt]; [assumption |].
  exfalso. apply Hn. exists z. split; [reflexivity | lia].
Qed.

(** C1: a record of non-negative counters and boolean flags that passes the
    hard checks is packed into the 32-bit word of the bit table (goles in
    bits 0-3, asistencias 4-7, paradas capped at 31 in 8-12, penaltisParados
    13-15, despejes capped at 63 in 16-21, minutosJugados / 3 rounded down in
    22-26, tarjetasAmarillas 27-28, tarjetasRojas 29, porteriaCero 30,
    ganoPartido 31), and [pack32] returns ["0x"] followed by eight lowercase
    hexadecimal digits which, read back digit by digit, give that word. *)
Theorem pack32_bit_layout
    (i : JS.value) (g a pp pa de mi ta tr : Z) (pc gp : bool) :
  let p := {| id := i; goles := JS.Num g; asistencias := JS.Num a;
              penaltisParados := JS.Num pp; paradas := JS.Num pa;
              despejes := JS.Num de; minutosJugados := JS.Num mi;
              tarjetasAmarillas := JS.Num ta; tarjetasRojas := JS.Num tr;
              porteriaCero := JS.Bool pc; ganoPartido := JS.Bool gp |} in
  0 <= g -> 0 <= a -> 0 <= pp -> 0 <= pa -> 0 <= de -> 0 <= mi ->
  0 <= ta -> 0 <= tr ->
  pack32_checks p = inr tt ->
  exists w : Z,
    pack32 p = inr (hex8 w) /\
    (String.length (hex8 w) = 10%nat /\
     String.substring 0 2 (hex8 w) = "0x" /\
     forallb lower_hex (digits_of (hex8 w)) = true) /\
    hex_number (digits_of (hex8 w)) = w /\
    0 <= w < 2 ^ 32 /\
    field w 0 4 = g /\
    field w 4 4 = a /\
    field w 8 5 = Z.min pa 31 /\
    field w 13 3 = pp /\
    field w 16 6 = Z.min de 63 /\
    field w 22 5 = mi / 3 /\
    field w 27 2 = ta /\
    field w 29 1 = tr /\
    field w 30 1 = b2z pc /\
    field w 31 1 = b2z gp.
Proof.
  intros p Hg Ha Hpp Hpa Hde Hmi Hta Htr Hchk.
  pose proof (pack32_checks_spec p) as Hlim. rewrite Hchk in Hlim.
  unfold over_limit in Hlim. simpl in Hlim.
  assert (Hg' : g <= 8) by (apply not_exceeds_num; tauto).
  assert (Ha' : a <= 8) by (apply not_exceeds_num; tauto).
  assert (Hpp' : pp <= 4) by (apply not_exceeds_num; tauto).
  assert (Hpa' : pa <= 32) by (apply not_exceeds_num; tauto).
  assert (Hde' : de <= 64) by (apply not_exceeds_num; tauto).
  assert (Hmi' : mi <= 90) by (apply not_exceeds_num; tauto).
  assert (Hta' : ta <= 2) by (apply not_exceeds_num; tauto).
  assert (Htr' : tr <= 1) by (apply not_exceeds_num; tauto).
  exists (pack32_word p).
  split; [apply pack32_ok; exact Hlim |].
  split; [apply hex8_shape |].
  split; [apply hex8_value; apply pack32_word_range |].
  split; [apply pack32_word_range |].
  destruct (pack32_fields p)
    as (F0 & F1 & F2 & F3 & F4 & F5 & F6 & F7 & F8 & F9).
  unfold p in F0, F1, F2, F3, F4, F5, F6, F7, F8, F9.
  cbn [goles asistencias penaltisParados paradas despejes minutosJugados
       tarjetasAmarillas tarjetasRojas porteriaCero ganoPartido
       JS.to_number JS.math_min JS.truthy]
    in F0, F1, F2, F3, F4, F5, F6, F7, F8, F9.
  rewrite (floor_div_num mi 3) in F5 by lia.
  rewrite low_small in F0, F1, F2, F3, F4, F5, F6, F7.
  - fold p in F0, F1, F2, F3, F4, F5, F6, F7, F8, F9. tauto.
  - lia.
  - lia.
  - split; [apply Z.div_pos; lia | apply Z.div_lt_upper_bound; lia].
  - lia.
  - lia.
  - lia.
  - lia.
  - lia.
Qed.

Lemma pack32_bit_layout_witness :
  pack32_checks
    {| id := JS.Num 1; goles := JS.Num 2; asistencias := JS.Num 1;
       penaltisParados := JS.Num 0; paradas := JS.Num 32;
       despejes := JS.Num 10; minutosJugados := JS.Num 89;
       tarjetasAmarillas := JS.Num 0; tarjetasRojas := JS.Num 0;
       porteriaCero := JS.Bool false; ganoPartido := JS.Bool true |}
    = inr tt /\
  pack32
    {| id := JS.Num 1; goles := JS.Num 2; asistencias := JS.Num 1;
       penaltisParados := JS.Num 0; paradas := JS.Num 32;
       despejes := JS.Num 10; minutosJugados := JS.Num 89;
       tarjetasAmarillas := JS.Num 0; tarjetasRojas := JS.Num 0;
       porteriaCero := JS.Bool false; ganoPartido := JS.Bool true |}
    = inr "0x874a1f12" /\
  exists w : Z,
    pack32
      {| id := JS.Num 1; goles := JS.Num 2; asistencias := JS.Num 1;
       penaltisParados := JS.Num 0; paradas := JS.Num 32;
       despejes := JS.Num 10; minutosJugados := JS.Num 89;
       tarjetasAmarillas := JS.Num 0; tarjetasRojas := JS.Num 0;
       porteriaCero := JS.Bool false; ganoPartido := JS.Bool true |}
      = inr (hex8 w) /\
    (String.length (hex8 w) = 10%nat /\
     String.substring 0 2 (hex8 w) = "0x" /\
     forallb lower_hex (digits_of (hex8 w)) = true) /\
    hex_number (digits_of (hex8 w)) = w /\
    0 <= w < 2 ^ 32 /\
    field w 0 4 = 2 /\
    field w 4 4 = 1 /\
    field w 8 5 = Z.min 32 31 /\
    field w 13 3 = 0 /\
    field w 16 6 = Z.min 10 63 /\
    field w 22 5 = 89 / 3 /\
    field w 27 2 = 0 /\
    field w 29 1 = 0 /\
    field w 30 1 = b2z false /\
    field w 31 1 = b2z true.
Proof.
  split; [reflexivity | split; [reflexivity |]].
  apply (pack32_bit_layout (JS.Num 1) 2 1 0 32 10 89 0 0 false true);
    solve [lia | reflexivity].
Defined.



(** The id is printed as a template literal prints a number. *)
Example pack32_large_id :
  pack32
    {| id := JS.Num (10 ^ 21); goles := JS.Num 9; asistencias := JS.Num 0;
       penaltisParados := JS.Num 0; paradas := JS.Num 0;
       despejes := JS.Num 0; minutosJugados := JS.Num 0;
       tarjetasAmarillas := JS.Num 0; tarjetasRojas := JS.Num 0;
       porteriaCero := JS.Bool false; ganoPartido := JS.Bool false |}
  = inl (JS.Error "goles>8 id=1e+21").
Proof. reflexivity. Qed.

(** C8: with every counter zero, [ganoPartido] alone gives [0x80000000] and
    [porteriaCero] alone gives [0x40000000]. *)
Theorem pack32_bit_isolation (i : JS.value) :
  pack32
    {| id := i; goles := JS.Num 0; asistencias := JS.Num 0;
       penaltisParados := JS.Num 0; paradas := JS.Num 0;
       despejes := JS.Num 0; minutosJugados := JS.Num 0;
       tarjetasAmarillas := JS.Num 0; tarjetasRojas := JS.Num 0;
       porteriaCero := JS.Bool false; ganoPartido := JS.Bool true |}
    = inr "0x80000000" /\
  pack32
    {| id := i; goles := JS.Num 0; asistencias := JS.Num 0;
       penaltisParados := JS.Num 0; paradas := JS.Num 0;
       despejes := JS.Num 0; minutosJugados := JS.Num 0;
       tarjetasAmarillas := JS.Num 0; tarjetasRojas := JS.Num 0;
       porteriaCero := JS.Bool true; ganoPartido := JS.Bool false |}
    = inr "0x40000000".
Proof. split; reflexivity. Qed.

Lemma low_num (v : JS.value) (z k : Z) :
  v = JS.Num z -> low (JS.to_number v) k = z mod 2 ^ k.
Proof. now intros ->. Qed.

Lemma low_min_num (v : JS.value) (z c k : Z) :
  v = JS.Num z -> low (JS.math_min v c) k = Z.min z c mod 2 ^ k.
Proof. now intros ->. Qed.

Lemma low_floor_num (v : JS.value) (z c k : Z) :
  v = JS.Num z -> 0 < c -> Z.abs z < c * 2 ^ 52 ->
  low (JS.floor_div v c) k = (z / c) mod 2 ^ k.
Proof. intros -> Hc Hz. now rewrite floor_div_num. Qed.

(** From 3 * 2^52 on the quotient of the doubles is rounded before the
    floor: the minutes below are stored as 31, where the exact quotient
    would give 30. *)
Example floor_div_rounds :
  JS.floor_div (JS.Num (-13510798882111492)) 3 = JS.Fin (-4503599627370497) /\
  (-13510798882111492) / 3 = -4503599627370498 /\
  low (JS.floor_div (JS.Num (-13510798882111492)) 3) 5 = 31.
Proof. repeat split. Qed.

(** C9: only upper bounds are enforced.  Every record with no field above
    its limit is packed, whatever the sign of its numbers; a number is
    reduced modulo the width of its field (after the cap of paradas and
    despejes and the division of minutosJugados, which is exact above
    -3 * 2^52), so goles = -1 is stored as 15 and paradas = -1 as 31. *)
Theorem pack32_lower_bound_unchecked (p : PlayerStat) :
  ~ over_limit p ->
  exists w : Z,
    pack32 p = inr (hex8 w) /\
    (forall z, goles p = JS.Num z -> field w 0 4 = z mod 2 ^ 4) /\
    (forall z, asistencias p = JS.Num z -> field w 4 4 = z mod 2 ^ 4) /\
    (forall z, paradas p = JS.Num z -> field w 8 5 = Z.min z 31 mod 2 ^ 5) /\
    (forall z, penaltisParados p = JS.Num z -> field w 13 3 = z mod 2 ^ 3) /\
    (forall z, despejes p = JS.Num z -> field w 16 6 = Z.min z 63 mod 2 ^ 6) /\
    (forall z, minutosJugados p = JS.Num z -> - (3 * 2 ^ 52) < z ->
               field w 22 5 = (z / 3) mod 2 ^ 5) /\
    (forall z, tarjetasAmarillas p = JS.Num z -> field w 27 2 = z mod 2 ^ 2) /\
    (forall z, tarjetasRojas p = JS.Num z -> field w 29 1 = z mod 2 ^ 1) /\
    (goles p = JS.Num (-1) -> field w 0 4 = 15) /\
    (paradas p = JS.Num (-1) -> field w 8 5 = 31).
Proof.
  intros Hlim. exists (pack32_word p).
  destruct (pack32_fields p)
    as (F0 & F1 & F2 & F3 & F4 & F5 & F6 & F7 & _ & _).
  split; [now apply pack32_ok |].
  repeat split.
  - intros z Hz. rewrite F0. now apply low_num.
  - intros z Hz. rewrite F1. now apply low_num.
  - intros z Hz. rewrite F2. now apply low_min_num.
  - intros z Hz. rewrite F3. now apply low_num.
  - intros z Hz. rewrite F4. now apply low_min_num.
  - intros z Hz Hlow. rewrite F5. apply low_floor_num; [exact Hz | lia |].
    assert (Hup : z <= 90).
    { apply not_exceeds_num. rewrite <- Hz. unfold over_limit in Hlim. tauto. }
    lia.
  - intros z Hz. rewrite F6. now apply low_num.
  - intros z Hz. rewrite F7. now apply low_num.
  - intros Hz. rewrite F0, (low_num _ _ _ Hz). reflexivity.
  - intros Hz. rewrite F2, (low_min_num _ _ _ _ Hz). reflexivity.
Qed.

Lemma pack32_lower_bound_unchecked_witness :
  ~ over_limit negative_stat /\
  pack32 negative_stat = inr "0x07c01fdf" /\
  exists w : Z,
    pack32 negative_stat = inr (hex8 w) /\
    field w 0 4 = 15 /\ field w 8 5 = 31.
Proof.
  assert (Hlim : ~ over_limit negative_stat)
    by exact (pack32_checks_spec negative_stat).
  split; [exact Hlim | split; [reflexivity |]].
  destruct (pack32_lower_bound_unchecked negative_stat Hlim)
    as (w & Hw & _ & _ & _ & _ & _ & _ & _ & _ & Hg & Hp).
  exists w. split; [exact Hw | split; [now apply Hg | now apply Hp]].
Defined.

(** * Part two: the pipeline *)

Section PipelineFacts.

Variable net : network.

Lemma quiet_same (st st' : state) : console st' = console st -> quiet st st'.
Proof.
  intros Hc. exists []. split; [now rewrite app_nil_r | reflexivity].
Qed.

Lemma quiet_refl (st : state) : quiet st st.
Proof. now apply quiet_same. Qed.

Lemma quiet_trans (a b c : state) : quiet a b -> quiet b c -> quiet a c.
Proof.
  intros (x & Hx & Hqx) (y & Hy & Hqy). exists (x ++ y)%list. split.
  - now rewrite Hy, Hx, app_assoc.
  - rewrite forallb_app. now rewrite Hqx, Hqy.
Qed.

Lemma quiet_no_summary (st st' : state) (s : summary) :
  quiet st st' ->
  In (LogSummary s) (console st') -> In (LogSummary s) (console st).
Proof.
  intros (extra & Hc & Hq) Hin. rewrite Hc in Hin.
  apply in_app_or in Hin as [Hin | Hin]; [assumption |].
  rewrite forallb_forall in Hq. specialize (Hq _ Hin). discriminate.
Qed.

(** One call of the callback: exactly one request goes out. *)
Lemma attempt_spec (tx : txData) (i : JS.value) (st : state) :
  let res := attempt net tx i st in
  sent (snd res) = (sent st ++ [tx])%list /\
  blockCalls (snd res) = blockCalls st /\
  quiet st (snd res) /\
  match fst res with
  | inl e => sendSignedTransaction net (List.length (sent st)) tx = inl e
  | inr gas => sendSignedTransaction net (List.length (sent st)) tx = inr gas
  end.
Proof.
  unfold attempt.
  destruct (sendSignedTransaction net (List.length (sent st)) tx)
    as [e | gas]; simpl; repeat split; try reflexivity.
  - now apply quiet_same.
  - exists [LogTx i gas (elapsed net (List.length (sent st)))].
    split; reflexivity.
Qed.

Lemma retry_loop_succ {A : Type} (fn : M A)
    (onRetry : JS.error -> nat -> M unit) (retries num : nat)
    (errors : list JS.error) (st : state) :
  retry_loop fn onRetry (S retries) num errors st =
  match fn st with
  | (inr a, st') => (inr a, st')
  | (inl e, st') =>
      retry_loop fn onRetry retries (S num) (errors ++ [e])%list
        (snd (onRetry e num st'))
  end.
Proof. reflexivity. Qed.

Lemma retry_succ {A : Type} (fn : M A) (onRetry : JS.error -> nat -> M unit)
    (retries num : nat) (st : state) :
  retry fn onRetry (S retries) num st =
  match fn st with
  | (inr a, st') => (inr a, st')
  | (inl e, st') =>
      retry_loop fn onRetry retries (S num) [e] (snd (onRetry e num st'))
  end.
Proof. reflexivity. Qed.

(** The retry loop sends the same request between one and [1 + retries]
    times and leaves the block counter alone; when it throws, every one of
    the [1 + retries] attempts was made. *)
Lemma retry_loop_spec (tx : txData) (i : JS.value) (retries : nat) :
  forall (num : nat) (errors : list JS.error) (st : state),
    let res :=
      retry_loop (attempt net tx i) (fun _ n => log (LogRetry i n)) retries
        num errors st
    in
    exists k : nat,
      (1 <= k <= S retries)%nat /\
      sent (snd res) = (sent st ++ repeat tx k)%list /\
      blockCalls (snd res) = blockCalls st /\
      quiet st (snd res) /\
      (forall e, fst res = inl e -> k = S retries).
Proof.
  induction retries as [| retries IH]; intros num errors st; cbn zeta.
  - simpl retry_loop.
    pose proof (attempt_spec tx i st) as (Hs & Hb & Hq & _).
    destruct (attempt net tx i st) as [[e | gas] st1]; simpl in *;
      exists 1%nat; repeat split; auto.
  - rewrite retry_loop_succ.
    pose proof (attempt_spec tx i st) as (Hs & Hb & Hq & _).
    destruct (attempt net tx i st) as [[e | gas] st1]; simpl in Hs, Hb, Hq.
    + set (st2 := snd (log (LogRetry i num) st1)).
      specialize (IH (S num) (errors ++ [e])%list st2). cbn zeta in IH.
      destruct IH as (k & Hk & Hs' & Hb' & Hq' & Hall).
      exists (S k). split; [lia |]. split; [| split; [| split]].
      * rewrite Hs'. subst st2. simpl sent. rewrite Hs.
        rewrite <- app_assoc. reflexivity.
      * rewrite Hb'. subst st2. simpl. exact Hb.
      * apply quiet_trans with st1; [exact Hq |].
        apply quiet_trans with st2; [| exact Hq'].
        exists [LogRetry i num]. split; reflexivity.
      * intros e' He'. f_equal. eapply Hall. exact He'.
    + exists 1%nat. simpl. repeat split; auto; try lia.
      discriminate.
Qed.

Lemma retry_attempt_spec (tx : txData) (i : JS.value) (retries : nat) :
  forall (num : nat) (st : state),
    let res :=
      retry (attempt net tx i) (fun _ n => log (LogRetry i n)) retries num st
    in
    exists k : nat,
      (1 <= k <= S retries)%nat /\
      sent (snd res) = (sent st ++ repeat tx k)%list /\
      blockCalls (snd res) = blockCalls st /\
      quiet st (snd res) /\
      (forall e, fst res = inl e -> k = S retries).
Proof. intros num st. exact (retry_loop_spec tx i retries num [] st). Qed.

Lemma sendPacked_unfold (packed : string) (i : JS.value) (nonce : Z)
    (st : state) :
  sendPacked net packed i nonce st =
  match encodeABI net i packed with
  | inl e => (inl e, st)
  | inr encoded =>
      match getBlock net (blockCalls st) with
      | inl e => (inl e, after_fetch st)
      | inr v =>
          match JS.to_bigint v with
          | inl e => (inl e, after_fetch st)
          | inr base =>
              retry (attempt net (build_tx net encoded base nonce) i)
                (fun _ n => log (LogRetry i n)) 3 1 (after_fetch st)
          end
      end
  end.
Proof.
  unfold sendPacked, bind, lift, getPendingBaseFee, after_fetch.
  destruct (encodeABI net i packed) as [e | encoded]; [reflexivity |].
  destruct (getBlock net (blockCalls st)) as [e | v]; [reflexivity |].
  destruct (JS.to_bigint v) as [e | base]; reflexivity.
Qed.

(** [sendPacked] either throws before anything is sent, or sends one request,
    built from the block it has just fetched, between one and four times. *)
Lemma sendPacked_spec (packed : string) (i : JS.value) (nonce : Z)
    (st : state) :
  let res := sendPacked net packed i nonce st in
  quiet st (snd res) /\
  ((exists e, fst res = inl e /\ sent (snd res) = sent st) \/
   (exists encoded v base k,
       encodeABI net i packed = inr encoded /\
       getBlock net (blockCalls st) = inr v /\
       JS.to_bigint v = inr base /\
       (1 <= k <= 4)%nat /\
       sent (snd res) =
         (sent st ++ repeat (build_tx net encoded base nonce) k)%list /\
       blockCalls (snd res) = S (blockCalls st) /\
       (forall e, fst res = inl e -> k = 4%nat))).
Proof.
  cbn zeta. rewrite sendPacked_unfold.
  destruct (encodeABI net i packed) as [e | encoded] eqn:Henc.
  { split; [apply quiet_refl | left; now exists e]. }
  destruct (getBlock net (blockCalls st)) as [e | v] eqn:Hblk.
  { split; [now apply quiet_same | left; now exists e]. }
  destruct (JS.to_bigint v) as [e | base] eqn:Hbig.
  { split; [now apply quiet_same | left; now exists e]. }
  pose proof (retry_attempt_spec (build_tx net encoded base nonce) i 3 1
                (after_fetch st)) as Hretry.
  cbn zeta in Hretry. destruct Hretry as (k & Hk & Hs & Hb & Hq & Hall).
  split.
  - apply quiet_trans with (after_fetch st); [now apply quiet_same | exact Hq].
  - right. exists encoded, v, base, k. repeat split; auto; lia.
Qed.

Lemma main_loop_cons (p : PlayerStat) (rest : list PlayerStat) (nonce : Z)
    (st : state) :
  main_loop net (p :: rest) nonce st =
  if JS.is_undefined (goles p) then main_loop net rest nonce st
  else
    match pack32 p with
    | inl e => (inl e, st)
    | inr packed =>
        match sendPacked net packed (id p) nonce st with
        | (inl e, st') => (inl e, st')
        | (inr _, st') => main_loop net rest (nonce + 1) st'
        end
    end.
Proof.
  simpl main_loop. destruct (JS.is_undefined (goles p)); [reflexivity |].
  unfold bind, lift. destruct (pack32 p); reflexivity.
Qed.

(** What a run of the loop has sent: the requests of the records it
    submitted, in order, each repeated once per attempt; the [j]-th of them
    is built from the [j]-th block fetched and carries the [j]-th nonce. *)
Lemma main_loop_trace (stats : list PlayerStat) :
  forall (nonce : Z) (st : state),
    let res := main_loop net stats nonce st in
    exists groups : list (txData * nat),
      sent (snd res) = (sent st ++ expand groups)%list /\
      Forall (fun g => 1 <= snd g <= 4)%nat groups /\
      (forall j g,
          nth_error groups j = Some g ->
          exists encoded v base,
            getBlock net (blockCalls st + j) = inr v /\
            JS.to_bigint v = inr base /\
            fst g = build_tx net encoded base (nonce + Z.of_nat j)) /\
      quiet st (snd res) /\
      (forall n,
          fst res = inr n ->
          n = nonce + Z.of_nat (List.length groups) /\
          List.length groups = List.length (filter present stats) /\
          blockCalls (snd res) = (blockCalls st + List.length groups)%nat).
Proof.
  induction stats as [| p rest IH]; intros nonce st; cbn zeta.
  - exists []. simpl. repeat split.
    + now rewrite app_nil_r.
    + constructor.
    + intros [| j] g Hg; discriminate.
    + apply quiet_refl.
    + injection H as <-. lia.
    + lia.
  - rewrite main_loop_cons.
    assert (Hfilter : List.length (filter present (p :: rest))
                      = ((if JS.is_undefined (goles p) then 0 else 1)
                         + List.length (filter present rest))%nat).
    { simpl filter. unfold present at 1.
      destruct (JS.is_undefined (goles p)); reflexivity. }
    rewrite Hfilter. clear Hfilter.
    destruct (JS.is_undefined (goles p)) eqn:Hskip.
    { apply IH. }
    destruct (pack32 p) as [e | packed].
    { exists []. simpl. repeat split.
      - now rewrite app_nil_r.
      - constructor.
      - intros [| j] g Hg; discriminate.
      - apply quiet_refl.
      - discriminate.
      - discriminate.
      - discriminate. }
    pose proof (sendPacked_spec packed (id p) nonce st) as Hsp.
    cbn zeta in Hsp.
    destruct (sendPacked net packed (id p) nonce st) as [[e | gas] st1];
      simpl fst in Hsp; simpl snd in Hsp; destruct Hsp as (Hq & Hsp).
    + destruct Hsp as [(e' & _ & Hs) | Hsp].
      * exists []. simpl. repeat split; try discriminate.
        -- now rewrite app_nil_r.
        -- constructor.
        -- intros [| j] g Hg; discriminate.
        -- exact Hq.
      * destruct Hsp as (encoded & v & base & k & _ & Hblk & Hbig & Hk & Hs
                         & _ & _).
        exists [(build_tx net encoded base nonce, k)].
        simpl. repeat split; try discriminate.
        -- now rewrite app_nil_r.
        -- constructor; [simpl; lia | constructor].
        -- intros [| [| j]] g Hg; try discriminate.
           injection Hg as <-. exists encoded, v, base.
           rewrite Nat.add_0_r, Z.add_0_r. simpl. auto.
        -- exact Hq.
    + destruct Hsp as [(e' & He' & _) | Hsp]; [discriminate |].
      destruct Hsp as (encoded & v & base & k & _ & Hblk & Hbig & Hk & Hs
                       & Hb & _).
      destruct (IH (nonce + 1) st1)
        as (groups & Hs' & Hall & Hnth & Hq' & Hok).
      exists ((build_tx net encoded base nonce, k) :: groups).
      split; [| split; [| split; [| split]]].
      * rewrite Hs', Hs. simpl expand. now rewrite <- app_assoc.
      * constructor; [simpl; lia | exact Hall].
      * intros [| j] g Hg.
        -- injection Hg as <-. exists encoded, v, base.
           rewrite Nat.add_0_r, Z.add_0_r. simpl. auto.
        -- simpl in Hg. destruct (Hnth j g Hg) as (enc' & v' & b' & H1 & H2
                                                   & H3).
           exists enc', v', b'. rewrite Hb in H1.
           rewrite Nat.add_succ_r. simpl in H1. split; [exact H1 |].
           split; [exact H2 |]. rewrite H3. f_equal. lia.
      * apply quiet_trans with st1; assumption.
      * intros n Hn. destruct (Hok n Hn) as (Hn' & Hlen & Hbc).
        simpl List.length. repeat split; lia.
Qed.

Lemma main_loop_app (pre rest : list PlayerStat) :
  forall (nonce : Z) (st : state),
    main_loop net (pre ++ rest) nonce st =
    match main_loop net pre nonce st with
    | (inl e, st1) => (inl e, st1)
    | (inr n1, st1) => main_loop net rest n1 st1
    end.
Proof.
  induction pre as [| p pre IH]; intros nonce st.
  - reflexivity.
  - rewrite <- app_comm_cons, !main_loop_cons.
    destruct (JS.is_undefined (goles p)); [apply IH |].
    destruct (pack32 p) as [e | packed]; [reflexivity |].
    destruct (sendPacked net packed (id p) nonce st) as [[e | gas] st1];
      [reflexivity | apply IH].
Qed.

(** When the network rejects [1 + retries] submissions in a row, the retry
    loop throws. *)
Lemma retry_all_fail (tx : txData) (i : JS.value) (retries : nat) :
  forall (num : nat) (errors : list JS.error) (st : state),
    (forall k, (k <= retries)%nat ->
       exists e,
         sendSignedTransaction net (List.length (sent st) + k) tx = inl e) ->
    exists e st',
      retry_loop (attempt net tx i) (fun _ n => log (LogRetry i n)) retries
        num errors st = (inl e, st').
Proof.
  induction retries as [| retries IH]; intros num errors st Hfail.
  - destruct (Hfail 0%nat ltac:(lia)) as (e & He).
    rewrite Nat.add_0_r in *.
    simpl retry_loop. unfold attempt. rewrite He. eauto.
  - destruct (Hfail 0%nat ltac:(lia)) as (e & He).
    rewrite Nat.add_0_r in He.
    rewrite retry_loop_succ. unfold attempt at 1. rewrite He.
    set (st2 := snd (log (LogRetry i num) _)).
    assert (Hlen : List.length (sent st2) = S (List.length (sent st))).
    { subst st2. simpl. rewrite length_app. simpl. lia. }
    apply IH. intros k Hk. rewrite Hlen.
    replace (S (List.length (sent st)) + k)%nat
      with (List.length (sent st) + S k)%nat by lia.
    apply Hfail. lia.
Qed.

(** With the request encoded and the base fee read, four rejections in a
    row make [sendPacked] throw. *)
Lemma sendPacked_exhausted (packed encoded : string) (i v : JS.value)
    (nonce base : Z) (st : state) :
  encodeABI net i packed = inr encoded ->
  getBlock net (blockCalls st) = inr v ->
  JS.to_bigint v = inr base ->
  (forall k, (k <= 3)%nat ->
     exists e,
       sendSignedTransaction net (List.length (sent st) + k)
         (build_tx net encoded base nonce) = inl e) ->
  exists e st', sendPacked net packed i nonce st = (inl e, st').
Proof.
  intros Henc Hblk Hbig Hfail.
  rewrite sendPacked_unfold, Henc, Hblk, Hbig.
  apply (retry_all_fail (build_tx net encoded base nonce) i 3 1 []
           (after_fetch st)).
  exact Hfail.
Qed.

End PipelineFacts.



(** C7: the requests a run sends are grouped by record, each group sent
    between one and four times; the request of the [j]-th group carries the
    gas limit 120000, the tip 2 * 10^9 and the maximum fee 2 * baseFee + tip,
    where baseFee is the answer to the [j]-th query of the pending block made
    by the run; when the loop completes there is one group and one query per
    record with goles: one query per record, none reused. *)
Theorem fees_recomputed (net : network) (stats : list PlayerStat)
    (start : Z) (st : state) :
  let res := main_loop net stats start st in
  exists groups : list (txData * nat),
    sent (snd res) = (sent st ++ expand groups)%list /\
    Forall (fun g => 1 <= snd g <= 4)%nat groups /\
    (forall j g,
        nth_error groups j = Some g ->
        tx_gas (fst g) = 120000 /\
        tx_maxPriorityFeePerGas (fst g) = "2000000000" /\
        exists v base,
          getBlock net (blockCalls st + j) = inr v /\
          JS.to_bigint v = inr base /\
          tx_maxFeePerGas (fst g) = JS.string_of_Z (2 * base + 2 * 10 ^ 9)) /\
    (forall n,
        fst res = inr n ->
        List.length groups = List.length (filter present stats) /\
        blockCalls (snd res) = (blockCalls st + List.length groups)%nat).
Proof.
  cbn zeta.
  destruct (main_loop_trace net stats start st)
    as (groups & Hs & Hall & Hnth & _ & Hok).
  exists groups. split; [exact Hs |]. split; [exact Hall |]. split.
  - intros j g Hg.
    destruct (Hnth j g Hg) as (encoded & v & base & Hblk & Hbig & ->).
    split; [reflexivity | split; [reflexivity |]].
    exists v, base. split; [exact Hblk | split; [exact Hbig |]].
    unfold build_tx. cbn [tx_maxFeePerGas]. f_equal. lia.
  - intros n Hn. destruct (Hok n Hn) as (_ & Hlen & Hb). now split.
Qed.

Lemma fees_recomputed_witness :
  let res := main_loop flaky_net [zero_stat; zero_stat; zero_stat] 5
               initial_state in
  fst res = inr 8 /\
  map tx_maxFeePerGas (sent (snd res))
  = ["2000000014"; "2000000016"; "2000000016"; "2000000018"] /\
  map tx_gas (sent (snd res)) = [120000; 120000; 120000; 120000] /\
  blockCalls (snd res) = 3%nat /\
  exists groups : list (txData * nat),
    sent (snd res) = expand groups /\ List.length groups = 3%nat.
Proof.
  intros res.
  destruct (fees_recomputed flaky_net [zero_stat; zero_stat; zero_stat] 5
              initial_state) as (groups & Hs & _ & _ & Hok).
  destruct (Hok 8 eq_refl) as (Hlen & _).
  repeat split; try reflexivity.
  exists groups. split; [exact Hs | exact Hlen].
Defined.

(** Three records from nonce 5 on a network that rejects the first
    submission of the second record: nonces 5, 6, 6, 7. *)
Example nonces_with_a_retry :
  map tx_nonce
    (sent (snd (main flaky_net [zero_stat; zero_stat; zero_stat] 5
                  initial_state)))
  = [5; 6; 6; 7].
Proof. reflexivity. Qed.

(** C4: when the record after [pre] has a goles field and either [pack32]
    throws on it or [sendPacked] throws on it (as it does once every attempt
    has failed), the main function throws that error whatever follows the
    record: the final state is the one the failure left, holding at most the
    four attempts of that record beyond those of [pre], and no summary line
    has been written. *)
Theorem batch_aborts (net : network) (pre post : list PlayerStat)
    (p : PlayerStat) (start n1 : Z) (st st1 st2 : state) (e : JS.error) :
  main_loop net pre start st = (inr n1, st1) ->
  present p = true ->
  (pack32 p = inl e /\ st2 = st1) \/
  (exists packed,
      pack32 p = inr packed /\
      sendPacked net packed (id p) n1 st1 = (inl e, st2)) ->
  main net (pre ++ p :: post) start st = (inl e, st2) /\
  (sent st2 = sent st1 \/
   exists tx, tx_nonce tx = n1 /\ sent st2 = (sent st1 ++ repeat tx 4)%list) /\
  (forall s, In (LogSummary s) (console st2) -> In (LogSummary s) (console st)).
Proof.
  intros Hpre Hp Hfail.
  assert (Hskip : JS.is_undefined (goles p) = false).
  { unfold present in Hp. now destruct (JS.is_undefined (goles p)). }
  assert (Hq1 : quiet st st1).
  { destruct (main_loop_trace net pre start st) as (_ & _ & _ & _ & Hq & _).
    now rewrite Hpre in Hq. }
  assert (Hloop : main_loop net (pre ++ p :: post) start st = (inl e, st2)).
  { rewrite main_loop_app, Hpre, main_loop_cons, Hskip.
    destruct Hfail as [(Hpack & ->) | (packed & Hpack & Hsend)].
    - now rewrite Hpack.
    - now rewrite Hpack, Hsend. }
  split; [| split].
  - unfold main, bind. now rewrite Hloop.
  - destruct Hfail as [(_ & ->) | (packed & _ & Hsend)]; [now left |].
    destruct (sendPacked_spec net packed (id p) n1 st1) as (_ & Hsp).
    rewrite Hsend in Hsp. simpl in Hsp.
    destruct Hsp as [(_ & _ & Hs) | Hsp]; [now left |].
    destruct Hsp as (encoded & v & base & k & _ & _ & _ & _ & Hs & _ & Hk).
    right. exists (build_tx net encoded base n1).
    split; [reflexivity |]. now rewrite (Hk e eq_refl) in Hs.
  - intros s Hin. apply (quiet_no_summary st st1 s Hq1).
    destruct Hfail as [(_ & ->) | (packed & _ & Hsend)]; [exact Hin |].
    destruct (sendPacked_spec net packed (id p) n1 st1) as (Hq & _).
    rewrite Hsend in Hq. simpl in Hq.
    now apply (quiet_no_summary st1 st2 s Hq).
Qed.

Lemma batch_aborts_witness :
  let st1 := snd (main_loop flaky_net [zero_stat] 5 initial_state) in
  main_loop flaky_net [zero_stat] 5 initial_state = (inr 6, st1) /\
  present nine_goals = true /\
  pack32 nine_goals = inl (JS.Error "goles>8 id=2") /\
  main flaky_net ([zero_stat] ++ nine_goals :: [zero_stat]) 5 initial_state
    = (inl (JS.Error "goles>8 id=2"), st1) /\
  List.length (sent st1) = 1%nat /\
  (forall s, In (LogSummary s) (console st1) ->
             In (LogSummary s) (console initial_state)).
Proof.
  intros st1.
  assert (Hpre : main_loop flaky_net [zero_stat] 5 initial_state = (inr 6, st1))
    by reflexivity.
  destruct (batch_aborts flaky_net [zero_stat] [zero_stat] nine_goals 5 6
              initial_state st1 st1 (JS.Error "goles>8 id=2") Hpre eq_refl
              (or_introl (conj eq_refl eq_refl)))
    as (Hmain & _ & Hsum).
  repeat split; try exact Hmain; try exact Hsum; reflexivity.
Defined.

(** The end-to-end scenario: the first record goes out at the starting
    nonce, the second is rejected by [pack32], the third is never looked at
    and no summary is written. *)
Example end_to_end :
  main flaky_net [full_match; nine_goals; no_goles] 5 initial_state
  = (inl (JS.Error "goles>8 id=2"),
     mkState 21000 [100] 1
       [mkTxData "0xA" "0xB" 120000 "2000000000" "2000000014" 5
          "actualizarStatsPacked32(1,0x878a0512)"]
       [LogTx (JS.Num 1) 21000 100]).
Proof. reflexivity. Qed.

(** A record whose four submissions are all rejected stops the run: the
    third record is never sent and no summary is written. *)
Example exhausted_retries_abort :
  main dead_net [zero_stat; zero_stat; zero_stat] 5 initial_state
  = (inl (JS.Rejected "timeout"),
     mkState 0 [] 1
       (repeat (build_tx dead_net "actualizarStatsPacked32(1,0x00000000)" 7 5)
          4)
       [LogRetry (JS.Num 1) 1; LogRetry (JS.Num 1) 2; LogRetry (JS.Num 1) 3]).
Proof. reflexivity. Qed.

(** C5, as the code has it: the base fee is read and converted once, before
    the retry loop.  When the pending-block query is rejected, or the block's
    base fee is undefined or null, [sendPacked] throws that error at once:
    nothing is sent and nothing is retried.  A base fee that is a number,
    negative or not, is not rejected: the request is built from it with
    maxFee = 2 * baseFee + tip and goes to the retry loop, which returns the
    receipt as soon as the network accepts it. *)
Theorem fee_failure_not_retried (net : network) (packed encoded : string)
    (i : JS.value) (nonce : Z) (st : state) :
  encodeABI net i packed = inr encoded ->
  (forall e,
      getBlock net (blockCalls st) = inl e \/
      (exists v, getBlock net (blockCalls st) = inr v /\
                 JS.to_bigint v = inl e) ->
      sendPacked net packed i nonce st = (inl e, after_fetch st)) /\
  (forall b,
      getBlock net (blockCalls st) = inr (JS.Num b) ->
      let tx := build_tx net encoded b nonce in
      tx_maxFeePerGas tx = JS.string_of_Z (2 * b + 2 * 10 ^ 9) /\
      sendPacked net packed i nonce st =
        retry (attempt net tx i) (fun _ n => log (LogRetry i n)) 3 1
          (after_fetch st) /\
      (forall gas,
          sendSignedTransaction net (List.length (sent st)) tx = inr gas ->
          fst (sendPacked net packed i nonce st) = inr gas)).
Proof.
  intros Henc. split.
  - intros e [Hblk | (v & Hblk & Hbig)]; rewrite sendPacked_unfold, Henc, Hblk.
    + reflexivity.
    + now rewrite Hbig.
  - intros b Hblk tx.
    assert (Hsend : sendPacked net packed i nonce st =
                    retry (attempt net tx i) (fun _ n => log (LogRetry i n))
                      3 1 (after_fetch st)).
    { now rewrite sendPacked_unfold, Henc, Hblk. }
    split; [| split].
    + unfold tx, build_tx. cbn [tx_maxFeePerGas]. f_equal. lia.
    + exact Hsend.
    + intros gas Hgas. rewrite Hsend, retry_succ.
      unfold attempt at 1. cbn [sent after_fetch]. now rewrite Hgas.
Qed.

Lemma fee_failure_not_retried_witness :
  encodeABI no_fee_net (JS.Num 1) "0x00000000"
    = inr "actualizarStatsPacked32(1,0x00000000)" /\
  sendPacked no_fee_net "0x00000000" (JS.Num 1) 5 initial_state
    = (inl (JS.TypeError "Cannot convert undefined to a BigInt"),
       mkState 0 [] 1 [] []).
Proof.
  split; [reflexivity |].
  apply (fee_failure_not_retried no_fee_net "0x00000000"
           "actualizarStatsPacked32(1,0x00000000)" (JS.Num 1) 5 initial_state
           eq_refl).
  right. exists JS.Undefined. split; reflexivity.
Defined.

(** C5 as stated fails on the code.  With a negative base fee nothing
    throws: the request goes out with maxFee = 2 * (-5) + 2 * 10^9 and the
    receipt comes back.  With no base fee the error is thrown after a single
    query of the pending block, without any submission or retry line. *)
Lemma fee_failure_counterexample :
  (getBlock negative_fee_net 0 = inr (JS.Num (-5)) /\
   ~ (exists e,
        fst (sendPacked negative_fee_net "0x00000000" (JS.Num 1) 5
               initial_state) = inl e) /\
   sendPacked negative_fee_net "0x00000000" (JS.Num 1) 5 initial_state
   = (inr 21000,
      mkState 21000 [100] 1
        [mkTxData "0xA" "0xB" 120000 "2000000000" "1999999990" 5
           "actualizarStatsPacked32(1,0x00000000)"]
        [LogTx (JS.Num 1) 21000 100])) /\
  (getBlock no_fee_net 0 = inr JS.Undefined /\
   sendPacked no_fee_net "0x00000000" (JS.Num 1) 5 initial_state
   = (inl (JS.TypeError "Cannot convert undefined to a BigInt"),
      mkState 0 [] 1 [] [])).
Proof.
  split; [split; [reflexivity | split; [| reflexivity]] | split; reflexivity].
  intros (e & He). discriminate He.
Qed.

(** C6: a record without goles changes nothing when the loop meets it (no
    nonce, no query, no request, no metrics, no log line), so the loop ends
    in the same state with or without it; the summary still counts it: the
    totals are the same and both averages are divided by one more record. *)
Theorem skipped_record_frame (net : network) (pre post : list PlayerStat)
    (p : PlayerStat) (start : Z) (st : state) :
  goles p = JS.Undefined ->
  main_loop net [p] start st = (inr start, st) /\
  main_loop net (pre ++ p :: post) start st =
    main_loop net (pre ++ post) start st /\
  (forall n s,
      main_loop net (pre ++ post) start st = (inr n, s) ->
      let count := List.length (pre ++ post) in
      let total := fold_left Z.add (latencies s) 0 in
      main net (pre ++ post) start st =
        (inr tt,
         mkState (totalGas s) (latencies s) (blockCalls s) (sent s)
           (console s ++
            [LogSummary
               (mkSummary count (totalGas s) (divide (totalGas s) count)
                  (divide total count))])%list) /\
      main net (pre ++ p :: post) start st =
        (inr tt,
         mkState (totalGas s) (latencies s) (blockCalls s) (sent s)
           (console s ++
            [LogSummary
               (mkSummary (S count) (totalGas s)
                  (Some (Qmake (totalGas s) (Pos.of_nat (S count))))
                  (Some (Qmake total (Pos.of_nat (S count)))))])%list)).
Proof.
  intros Hp.
  assert (Hone : forall rest nonce s,
             main_loop net (p :: rest) nonce s = main_loop net rest nonce s).
  { intros rest nonce s. now rewrite main_loop_cons, Hp. }
  assert (Hsame : main_loop net (pre ++ p :: post) start st =
                  main_loop net (pre ++ post) start st).
  { rewrite !main_loop_app.
    destruct (main_loop net pre start st) as [[e | n1] st1];
      [reflexivity | apply Hone]. }
  split; [apply Hone | split; [exact Hsame |]].
  intros n s Hrun count total. split.
  - unfold main, bind. rewrite Hrun. reflexivity.
  - unfold main, bind. rewrite Hsame, Hrun.
    unfold log, summarize. cbn [totalGas latencies blockCalls sent console].
    replace (List.length (pre ++ p :: post)) with (S count).
    + reflexivity.
    + subst count. rewrite !length_app. simpl. lia.
Qed.

Lemma skipped_record_frame_witness :
  goles no_goles = JS.Undefined /\
  main flaky_net [zero_stat; zero_stat] 5 initial_state
  = (inr tt,
     mkState 42000 [100; 102] 2
       (sent (snd (main_loop flaky_net [zero_stat; zero_stat] 5
                     initial_state)))
       [LogTx (JS.Num 1) 21000 100; LogRetry (JS.Num 1) 1;
        LogTx (JS.Num 1) 21000 102;
        LogSummary (mkSummary 2 42000 (Some (42000 # 2)) (Some (202 # 2)))]) /\
  main flaky_net ([zero_stat] ++ no_goles :: [zero_stat]) 5 initial_state
  = (inr tt,
     mkState 42000 [100; 102] 2
       (sent (snd (main_loop flaky_net [zero_stat; zero_stat] 5
                     initial_state)))
       [LogTx (JS.Num 1) 21000 100; LogRetry (JS.Num 1) 1;
        LogTx (JS.Num 1) 21000 102;
        LogSummary (mkSummary 3 42000 (Some (42000 # 3)) (Some (202 # 3)))]).
Proof.
  destruct (skipped_record_frame flaky_net [zero_stat] [zero_stat] no_goles 5
              initial_state eq_refl) as (_ & _ & Hsum).
  destruct (Hsum 7 (snd (main_loop flaky_net [zero_stat; zero_stat] 5
                           initial_state)) eq_refl) as (H2 & H3).
  split; [reflexivity | split]; [exact H2 | exact H3].
Defined.

(** C10: a record that has a goles field is not skipped, whatever else is
    missing: when no field it does have is above its limit, [pack32] returns
    its word and the loop goes on to [sendPacked] with it.  A missing field
    passes every upper-bound test, a missing counter leaves its bits at 0 and
    a missing flag leaves its bit at 0. *)
Theorem partial_record_packed (net : network) (p : PlayerStat)
    (rest : list PlayerStat) (nonce : Z) (st : state) :
  goles p <> JS.Undefined ->
  ~ over_limit p ->
  exists w : Z,
    pack32 p = inr (hex8 w) /\
    main_loop net (p :: rest) nonce st =
      (sendPacked net (hex8 w) (id p) nonce ;;;
       main_loop net rest (nonce + 1)) st /\
    (forall lim, JS.gt JS.Undefined lim = false) /\
    (asistencias p = JS.Undefined -> field w 4 4 = 0) /\
    (paradas p = JS.Undefined -> field w 8 5 = 0) /\
    (penaltisParados p = JS.Undefined -> field w 13 3 = 0) /\
    (despejes p = JS.Undefined -> field w 16 6 = 0) /\
    (minutosJugados p = JS.Undefined -> field w 22 5 = 0) /\
    (tarjetasAmarillas p = JS.Undefined -> field w 27 2 = 0) /\
    (tarjetasRojas p = JS.Undefined -> field w 29 1 = 0) /\
    (porteriaCero p = JS.Undefined -> field w 30 1 = 0) /\
    (ganoPartido p = JS.Undefined -> field w 31 1 = 0).
Proof.
  intros Hg Hlim. exists (pack32_word p).
  pose proof (pack32_ok p Hlim) as Hpack.
  destruct (pack32_fields p)
    as (_ & F1 & F2 & F3 & F4 & F5 & F6 & F7 & F8 & F9).
  split; [exact Hpack |]. split.
  - rewrite main_loop_cons, Hpack.
    destruct (goles p) eqn:Hgoles; try contradiction; reflexivity.
  - split; [reflexivity |].
    repeat split; intros Hu.
    + rewrite F1, Hu. reflexivity.
    + rewrite F2, Hu. reflexivity.
    + rewrite F3, Hu. reflexivity.
    + rewrite F4, Hu. reflexivity.
    + rewrite F5, Hu. reflexivity.
    + rewrite F6, Hu. reflexivity.
    + rewrite F7, Hu. reflexivity.
    + rewrite F8, Hu. reflexivity.
    + rewrite F9, Hu. reflexivity.
Qed.

Lemma partial_record_packed_witness :
  goles only_goles <> JS.Undefined /\
  ~ over_limit only_goles /\
  pack32 only_goles = inr "0x00000003" /\
  exists w : Z,
    pack32 only_goles = inr (hex8 w) /\
    List.length
      (sent (snd (main_loop flaky_net [only_goles] 5 initial_state)))
      = 1%nat /\
    field w 4 4 = 0 /\ field w 8 5 = 0 /\ field w 30 1 = 0.
Proof.
  assert (Hg : goles only_goles <> JS.Undefined) by discriminate.
  assert (Hlim : ~ over_limit only_goles)
    by exact (pack32_checks_spec only_goles).
  split; [exact Hg | split; [exact Hlim | split; [reflexivity |]]].
  destruct (partial_record_packed flaky_net only_goles [] 5 initial_state
              Hg Hlim)
    as (w & Hw & _ & _ & Ha & Hp & _ & _ & _ & _ & _ & Hpc & _).
  exists w. split; [exact Hw |]. split; [reflexivity |].
  split; [now apply Ha | split; [now apply Hp | now apply Hpc]].
Defined.

(** * Part three: further properties of the codec *)

Lemma hex_digit_inj (x y : Z) :
  0 <= x < 16 -> 0 <= y < 16 -> JS.hex_digit x = JS.hex_digit y -> x = y.
Proof.
  intros Hx Hy Heq.
  rewrite <- (hex_value_digit x Hx), <- (hex_value_digit y Hy).
  now rewrite Heq.
Qed.

Lemma hex8_inj (a b : Z) :
  0 <= a < 2 ^ 32 -> 0 <= b < 2 ^ 32 -> hex8 a = hex8 b -> a = b.
Proof.
  intros Ha Hb Heq. unfold hex8 in Heq.
  injection Heq as H7 H6 H5 H4 H3 H2 H1 H0.
  apply hex_digit_inj in H7, H6, H5, H4, H3, H2, H1, H0;
    try (apply Z.mod_pos_bound; lia).
  change (16 ^ 7) with 268435456 in H7.
  change (16 ^ 6) with 16777216 in H6.
  change (16 ^ 5) with 1048576 in H5.
  change (16 ^ 4) with 65536 in H4.
  change (16 ^ 3) with 4096 in H3.
  change (16 ^ 2) with 256 in H2.
  change (16 ^ 1) with 16 in H1.
  change (16 ^ 0) with 1 in H0.
  change (2 ^ 32) with 4294967296 in Ha, Hb.
  Z.div_mod_to_equations. lia.
Qed.

(** X3: two different 32-bit words are never rendered as the same string. *)
Theorem render_word_injective (a b : Z) :
  0 <= a < 2 ^ 32 -> 0 <= b < 2 ^ 32 -> render_word a = render_word b ->
  a = b.
Proof.
  intros Ha Hb Heq.
  rewrite !render_word_hex8 in Heq by assumption.
  now apply hex8_inj.
Qed.

Lemma render_word_injective_witness :
  0 <= 255 < 2 ^ 32 /\ render_word 255 = "0x000000ff" /\
  (render_word 255 = render_word 255 -> 255 = 255).
Proof.
  split; [lia | split; [reflexivity |]].
  apply (render_word_injective 255 255); lia.
Defined.

Lemma pack32_inr_within (p : PlayerStat) (s : string) :
  pack32 p = inr s -> ~ over_limit p.
Proof.
  intros Hs. unfold pack32 in Hs.
  pose proof (pack32_checks_spec p) as Hc.
  destruct (pack32_checks p) as [e | u]; [discriminate | exact Hc].
Qed.

(** X2: whatever the record holds (negative numbers, null, booleans,
    missing fields), a string returned by [pack32] is ["0x"] followed by the
    eight lowercase hexadecimal digits of a word below 2^32. *)
Theorem pack32_output_shape (p : PlayerStat) (s : string) :
  pack32 p = inr s ->
  String.length s = 10%nat /\
  String.substring 0 2 s = "0x" /\
  forallb lower_hex (digits_of s) = true /\
  exists w : Z, 0 <= w < 2 ^ 32 /\ s = hex8 w.
Proof.
  intros Hs.
  pose proof (pack32_ok p (pack32_inr_within p s Hs)) as Hok.
  rewrite Hok in Hs. injection Hs as <-.
  destruct (hex8_shape (pack32_word p)) as (Hlen & Hpre & Hdig).
  repeat split; try assumption.
  exists (pack32_word p). split; [apply pack32_word_range | reflexivity].
Qed.

Lemma pack32_output_shape_witness :
  pack32 negative_stat = inr "0x07c01fdf" /\
  String.length "0x07c01fdf" = 10%nat /\
  exists w : Z, 0 <= w < 2 ^ 32 /\ "0x07c01fdf" = hex8 w.
Proof.
  split; [reflexivity |].
  destruct (pack32_output_shape negative_stat "0x07c01fdf" eq_refl)
    as (Hlen & _ & _ & Hw).
  split; [exact Hlen | exact Hw].
Defined.

Ltac decide_gt H :=
  first [apply gt_true_iff in H | apply gt_false_iff in H].

(** X1: the tests run in source order and the first one that fails decides
    the message: the goles message is thrown exactly when goles is above 8,
    the asistencias message exactly when goles is within its limit and
    asistencias is not, and so on down to the cards. *)
Theorem pack32_error_precedence (p : PlayerStat) :
  let i := JS.to_string (id p) in
  (pack32 p = inl (JS.Error ("goles>8 id=" ++ i)) <->
   exceeds (goles p) 8) /\
  (pack32 p = inl (JS.Error ("asis>8 id=" ++ i)) <->
   ~ exceeds (goles p) 8 /\ exceeds (asistencias p) 8) /\
  (pack32 p = inl (JS.Error ("penaltisParados>4 id=" ++ i)) <->
   ~ exceeds (goles p) 8 /\ ~ exceeds (asistencias p) 8 /\
   exceeds (penaltisParados p) 4) /\
  (pack32 p = inl (JS.Error ("paradas/despejes fuera de rango id=" ++ i)) <->
   ~ exceeds (goles p) 8 /\ ~ exceeds (asistencias p) 8 /\
   ~ exceeds (penaltisParados p) 4 /\
   (exceeds (paradas p) 32 \/ exceeds (despejes p) 64)) /\
  (pack32 p = inl (JS.Error ("minutos>90 id=" ++ i)) <->
   ~ exceeds (goles p) 8 /\ ~ exceeds (asistencias p) 8 /\
   ~ exceeds (penaltisParados p) 4 /\ ~ exceeds (paradas p) 32 /\
   ~ exceeds (despejes p) 64 /\ exceeds (minutosJugados p) 90) /\
  (pack32 p = inl (JS.Error ("tarjetas fuera de rango id=" ++ i)) <->
   ~ exceeds (goles p) 8 /\ ~ exceeds (asistencias p) 8 /\
   ~ exceeds (penaltisParados p) 4 /\ ~ exceeds (paradas p) 32 /\
   ~ exceeds (despejes p) 64 /\ ~ exceeds (minutosJugados p) 90 /\
   (exceeds (tarjetasAmarillas p) 2 \/ exceeds (tarjetasRojas p) 1)).
Proof.
  intros i. subst i. unfold pack32, pack32_checks, throw.
  destruct (JS.gt (goles p) 8) eqn:H1; decide_gt H1;
    [repeat split; intros; try tauto; try discriminate |].
  destruct (JS.gt (asistencias p) 8) eqn:H2; decide_gt H2;
    [repeat split; intros; try tauto; try discriminate |].
  destruct (JS.gt (penaltisParados p) 4) eqn:H3; decide_gt H3;
    [repeat split; intros; try tauto; try discriminate |].
  destruct (JS.gt (paradas p) 32) eqn:H4; decide_gt H4;
    [repeat split; intros; try tauto; try discriminate |].
  destruct (JS.gt (despejes p) 64) eqn:H5; decide_gt H5;
    [repeat split; intros; try tauto; try discriminate |].
  destruct (JS.gt (minutosJugados p) 90) eqn:H6; decide_gt H6;
    [repeat split; intros; try tauto; try discriminate |].
  destruct (JS.gt (tarjetasAmarillas p) 2) eqn:H7; decide_gt H7;
    [repeat split; intros; try tauto; try discriminate |].
  destruct (JS.gt (tarjetasRojas p) 1) eqn:H8; decide_gt H8;
    repeat split; intros; try tauto; try discriminate.
Qed.

Lemma counter_within (v : JS.value) (lim : Z) :
  counter v lim -> ~ exceeds v lim.
Proof.
  intros (z & -> & Hz) (z' & Hz' & Hlt). simpl in Hz'.
  injection Hz' as <-. lia.
Qed.

Lemma in_domain_within (p : PlayerStat) : in_domain p -> ~ over_limit p.
Proof.
  intros (H1 & H2 & H3 & H4 & H5 & H6 & H7 & H8 & _ & _).
  apply counter_within in H1, H2, H3, H4, H5, H6, H7, H8.
  unfold over_limit. tauto.
Qed.

Lemma b2z_inj (a b : bool) : b2z a = b2z b -> a = b.
Proof. destruct a, b; simpl; intros H; congruence || lia. Qed.

(** X4: on records inside their ranges [pack32] loses nothing but what the
    two caps and the division of the minutes drop: two such records get the
    same string exactly when they agree on goles, asistencias,
    penaltisParados, both cards and both flags, on paradas capped at 31, on
    despejes capped at 63 and on minutosJugados divided by 3. *)
Theorem pack32_injective_up_to_caps (p q : PlayerStat) :
  in_domain p -> in_domain q ->
  (pack32 p = pack32 q <-> same_packed_content p q).
Proof.
  intros Hp Hq.
  pose proof (pack32_ok p (in_domain_within p Hp)) as Hpp.
  pose proof (pack32_ok q (in_domain_within q Hq)) as Hpq.
  rewrite Hpp, Hpq. split.
  - intros Hsame.
    assert (Heq : pack32_word p = pack32_word q).
    { apply hex8_inj; try apply pack32_word_range. congruence. }
    clear Hsame.
    destruct (pack32_fields p)
      as (P0 & P1 & P2 & P3 & P4 & P5 & P6 & P7 & P8 & P9).
    destruct (pack32_fields q)
      as (Q0 & Q1 & Q2 & Q3 & Q4 & Q5 & Q6 & Q7 & Q8 & Q9).
    cbv zeta in *. rewrite Heq in P0, P1, P2, P3, P4, P5, P6, P7, P8, P9.
    rewrite Q0 in P0. rewrite Q1 in P1. rewrite Q2 in P2. rewrite Q3 in P3.
    rewrite Q4 in P4. rewrite Q5 in P5. rewrite Q6 in P6. rewrite Q7 in P7.
    rewrite Q8 in P8. rewrite Q9 in P9.
    clear Q0 Q1 Q2 Q3 Q4 Q5 Q6 Q7 Q8 Q9 Heq Hpp Hpq.
    destruct Hp as ((g & Eg & Hg) & (a & Ea & Ha) & (pp & Epp & Hpp)
                    & (pa & Epa & Hpa) & (de & Ede & Hde) & (mi & Emi & Hmi)
                    & (ta & Eta & Hta) & (tr & Etr & Htr) & (pc & Epc)
                    & (gp & Egp)).
    destruct Hq as ((g' & Eg' & Hg') & (a' & Ea' & Ha') & (pp' & Epp' & Hpp')
                    & (pa' & Epa' & Hpa') & (de' & Ede' & Hde')
                    & (mi' & Emi' & Hmi') & (ta' & Eta' & Hta')
                    & (tr' & Etr' & Htr') & (pc' & Epc') & (gp' & Egp')).
    unfold same_packed_content.
    rewrite Eg, Ea, Epp, Epa, Ede, Emi, Eta, Etr, Epc, Egp in *.
    rewrite Eg', Ea', Epp', Epa', Ede', Emi', Eta', Etr', Epc', Egp' in *.
    cbn [JS.to_number JS.math_min JS.truthy] in *.
    rewrite (floor_div_num mi 3), (floor_div_num mi' 3) in P5 by lia.
    rewrite (floor_div_num mi 3), (floor_div_num mi' 3) by lia.
    assert (Hmi3 : 0 <= mi / 3 < 2 ^ 5)
      by (split; [apply Z.div_pos; lia | apply Z.div_lt_upper_bound; lia]).
    assert (Hmi3' : 0 <= mi' / 3 < 2 ^ 5)
      by (split; [apply Z.div_pos; lia | apply Z.div_lt_upper_bound; lia]).
    rewrite !low_small in P0, P1, P2, P3, P4, P5, P6, P7 by lia.
    apply b2z_inj in P8, P9.
    repeat split; congruence.
  - intros (E0 & E1 & E2 & E3 & E4 & E5 & E6 & E7 & E8 & E9).
    do 2 f_equal. unfold pack32_word. cbv zeta.
    now rewrite E0, E1, E2, E3, E4, E5, E6, E7, E8, E9.
Qed.

Lemma maxed_in_domain : in_domain maxed_stat.
Proof.
  unfold in_domain, counter, flag, maxed_stat; simpl.
  repeat split; eexists; try (split; [reflexivity | lia]); reflexivity.
Qed.

Lemma capped_in_domain : in_domain capped_stat.
Proof.
  unfold in_domain, counter, flag, capped_stat; simpl.
  repeat split; eexists; try (split; [reflexivity | lia]); reflexivity.
Qed.

Lemma pack32_injective_up_to_caps_witness :
  in_domain maxed_stat /\ in_domain capped_stat /\
  same_packed_content maxed_stat capped_stat /\
  pack32 maxed_stat = pack32 capped_stat /\
  pack32 maxed_stat = inr "0xf77f9f88".
Proof.
  split; [exact maxed_in_domain | split; [exact capped_in_domain |]].
  assert (Hsame : same_packed_content maxed_stat capped_stat)
    by (repeat split).
  split; [exact Hsame | split; [| reflexivity]].
  apply (pack32_injective_up_to_caps maxed_stat capped_stat maxed_in_domain
           capped_in_domain).
  exact Hsame.
Defined.

(** X5: [pack32] reads a counter through its numeric value and a flag
    through its truth value only; the id appears in nothing but the error
    message.  Records that agree under these coercions (null, false or 0 for
    a counter; true or a non-zero number for a flag) get the same string, and
    the same result altogether when their ids agree. *)
Theorem pack32_coercions (p q : PlayerStat) :
  same_coerced p q ->
  (forall s, pack32 p = inr s <-> pack32 q = inr s) /\
  (id p = id q -> pack32 p = pack32 q).
Proof.
  intros (E0 & E1 & E2 & E3 & E4 & E5 & E6 & E7 & E8 & E9).
  assert (Hword : pack32_word p = pack32_word q).
  { unfold pack32_word, JS.math_min, JS.floor_div. cbv zeta.
    now rewrite E0, E1, E2, E3, E4, E5, E6, E7, E8, E9. }
  unfold pack32, pack32_checks, JS.gt, throw.
  rewrite Hword, E0, E1, E2, E3, E4, E5, E6, E7.
  split.
  - intros s.
    repeat match goal with
           | |- context [if ?c then _ else _] => destruct c; simpl
           end;
      split; intros H; try discriminate; exact H.
  - intros ->. reflexivity.
Qed.

Lemma pack32_coercions_witness :
  same_coerced loose_stat strict_stat /\
  pack32 loose_stat = inr "0x4bc00510" /\
  pack32 loose_stat = pack32 strict_stat.
Proof.
  assert (Hsame : same_coerced loose_stat strict_stat) by (repeat split).
  split; [exact Hsame | split; [reflexivity |]].
  destruct (pack32_coercions loose_stat strict_stat Hsame) as (_ & Hid).
  apply Hid. reflexivity.
Defined.

(** * Part four: further properties of the pipeline *)

Section RetryOutcomes.

Variable net : network.

Lemma retry_first_success {A : Type} (fn : M A)
    (onRetry : JS.error -> nat -> M unit) (retries num : nat) (st st' : state)
    (a : A) :
  forall errors,
    fn st = (inr a, st') ->
    retry_loop fn onRetry retries num errors st = (inr a, st').
Proof.
  intros errors Hfn. destruct retries; simpl; now rewrite Hfn.
Qed.

(** [j] rejections followed by an acceptance, with retries to spare. *)
Lemma retry_succeeds_after (tx : txData) (i : JS.value) (gas : Z) (j : nat) :
  forall (retries num : nat) (errors : list JS.error) (st : state),
    (j <= retries)%nat ->
    (forall m, (m < j)%nat ->
       exists e,
         sendSignedTransaction net (List.length (sent st) + m) tx = inl e) ->
    sendSignedTransaction net (List.length (sent st) + j) tx = inr gas ->
    retry_loop (attempt net tx i) (fun _ n => log (LogRetry i n)) retries num
      errors st =
    (inr gas,
     mkState (totalGas st + gas)
       (latencies st ++ [elapsed net (List.length (sent st) + j)])%list
       (blockCalls st)
       (sent st ++ repeat tx (S j))%list
       (console st ++ retry_lines i num j
          ++ [LogTx i gas (elapsed net (List.length (sent st) + j))])%list).
Proof.
  induction j as [| j IH]; intros retries num errors st Hj Hrej Hacc.
  - rewrite Nat.add_0_r in *.
    apply retry_first_success. unfold attempt. now rewrite Hacc.
  - destruct retries as [| retries]; [lia |].
    destruct (Hrej 0%nat ltac:(lia)) as (e & He).
    rewrite Nat.add_0_r in He.
    rewrite retry_loop_succ. unfold attempt at 1. rewrite He.
    set (st2 := snd (log (LogRetry i num) _)).
    assert (Hlen : List.length (sent st2) = S (List.length (sent st))).
    { subst st2. simpl. rewrite length_app. simpl. lia. }
    rewrite (IH retries (S num) (errors ++ [e])%list st2).
    + rewrite Hlen. subst st2. cbn [log snd totalGas latencies blockCalls
                                     sent console].
      replace (S (List.length (sent st)) + j)%nat
        with (List.length (sent st) + S j)%nat by lia.
      f_equal. f_equal.
      * rewrite <- app_assoc. reflexivity.
      * rewrite <- app_assoc. reflexivity.
    + lia.
    + intros m Hm. rewrite Hlen.
      replace (S (List.length (sent st)) + m)%nat
        with (List.length (sent st) + S m)%nat by lia.
      apply Hrej. lia.
    + rewrite Hlen.
      now replace (S (List.length (sent st)) + j)%nat
        with (List.length (sent st) + S j)%nat by lia.
Qed.


End RetryOutcomes.

(** X6: when the network rejects the first [j] submissions of a record
    ([j] at most 3) and accepts the next, [sendPacked] returns that receipt's
    gas after exactly [j + 1] identical requests and one query of the pending
    block; it has logged the retries numbered 1 to [j] and then the record's
    line, and added the gas and one latency to the metrics. *)
Theorem sendPacked_succeeds_after (net : network) (packed encoded : string)
    (i v : JS.value) (nonce base gas : Z) (j : nat) (st : state) :
  let tx := build_tx net encoded base nonce in
  let k := (List.length (sent st) + j)%nat in
  encodeABI net i packed = inr encoded ->
  getBlock net (blockCalls st) = inr v ->
  JS.to_bigint v = inr base ->
  (j <= 3)%nat ->
  (forall m, (m < j)%nat ->
     exists e,
       sendSignedTransaction net (List.length (sent st) + m) tx = inl e) ->
  sendSignedTransaction net k tx = inr gas ->
  sendPacked net packed i nonce st =
  (inr gas,
   mkState (totalGas st + gas) (latencies st ++ [elapsed net k])%list
     (S (blockCalls st)) (sent st ++ repeat tx (S j))%list
     (console st ++ retry_lines i 1 j ++ [LogTx i gas (elapsed net k)])%list).
Proof.
  intros tx k Henc Hblk Hbig Hj Hrej Hacc.
  rewrite sendPacked_unfold, Henc, Hblk, Hbig.
  apply (retry_succeeds_after net tx i gas j 3 1 [] (after_fetch st) Hj Hrej
           Hacc).
Qed.

Lemma sendPacked_succeeds_after_witness :
  sendPacked slow_start_net "0x00000000" (JS.Num 1) 5 initial_state =
  (inr 21000,
   mkState 21000 [102] 1
     (repeat
        (build_tx slow_start_net "actualizarStatsPacked32(1,0x00000000)" 7 5)
        3)
     [LogRetry (JS.Num 1) 1; LogRetry (JS.Num 1) 2;
      LogTx (JS.Num 1) 21000 102]).
Proof.
  apply (sendPacked_succeeds_after slow_start_net "0x00000000"
           "actualizarStatsPacked32(1,0x00000000)" (JS.Num 1) (JS.Num 7) 5 7
           21000 2 initial_state); try reflexivity; try lia.
  intros m Hm. exists (JS.Rejected "timeout").
  destruct m as [| [| m]]; [reflexivity | reflexivity | lia].
Defined.



(** The error thrown after four failures: the most frequent message wins,
    the latest error on equal counts. *)
Example main_error_samples :
  JS.main_error [JS.Rejected "a"; JS.Rejected "a"; JS.Rejected "b"]
    (JS.Rejected "c") = JS.Rejected "a" /\
  JS.main_error [JS.Rejected "a"; JS.Rejected "b"; JS.Rejected "c"]
    (JS.Rejected "d") = JS.Rejected "d" /\
  JS.main_error [JS.Rejected "a"; JS.Rejected "b"; JS.Rejected "b"]
    (JS.Rejected "a") = JS.Rejected "a" /\
  JS.main_error [JS.Rejected "a"; JS.TypeError "b"; JS.Error "b"]
    (JS.Rejected "c") = JS.Error "b".
Proof. repeat split. Qed.

Section Accounting.

Variable net : network.

Lemma gas_logged_app (a b : list line) :
  gas_logged (a ++ b) = gas_logged a + gas_logged b.
Proof.
  induction a as [| [i g d | i n | sm] a IH]; simpl; lia.
Qed.

Lemma latencies_logged_app (a b : list line) :
  latencies_logged (a ++ b) = (latencies_logged a ++ latencies_logged b)%list.
Proof.
  induction a as [| [i g d | i n | sm] a IH]; simpl; congruence.
Qed.

Lemma count_tx_app (a b : list line) :
  count_tx (a ++ b) = (count_tx a + count_tx b)%nat.
Proof.
  unfold count_tx. now rewrite filter_app, length_app.
Qed.

Lemma accounted_nil (st st' : state) :
  console st' = console st -> totalGas st' = totalGas st ->
  latencies st' = latencies st -> accounted st st' [].
Proof.
  intros Hc Hg Hl. unfold accounted. simpl.
  rewrite !app_nil_r, Z.add_0_r. auto.
Qed.

Lemma accounted_trans (a b c : state) (x y : list line) :
  accounted a b x -> accounted b c y -> accounted a c (x ++ y).
Proof.
  intros (Hc1 & Hg1 & Hl1) (Hc2 & Hg2 & Hl2). unfold accounted.
  rewrite gas_logged_app, latencies_logged_app.
  rewrite Hc2, Hc1, Hg2, Hg1, Hl2, Hl1, !app_assoc.
  repeat split. lia.
Qed.

(** The retry loop: one line per request, except for the request whose
    rejection is thrown. *)
Lemma retry_loop_accounted (tx : txData) (i : JS.value) (retries : nat) :
  forall (num : nat) (errors : list JS.error) (st : state),
    let res :=
      retry_loop (attempt net tx i) (fun _ n => log (LogRetry i n)) retries
        num errors st
    in
    exists extra : list line,
      accounted st (snd res) extra /\
      match fst res with
      | inr _ =>
          count_tx extra = 1%nat /\
          List.length (sent (snd res))
          = (List.length (sent st) + List.length extra)%nat
      | inl _ =>
          count_tx extra = 0%nat /\
          List.length (sent (snd res))
          = (List.length (sent st) + List.length extra + 1)%nat
      end.
Proof.
  induction retries as [| retries IH]; intros num errors st; cbn zeta.
  - simpl retry_loop. unfold attempt.
    destruct (sendSignedTransaction net (List.length (sent st)) tx)
      as [e | gas]; cbn [fst snd].
    + exists []. split; [now apply accounted_nil |].
      cbn [sent]. rewrite length_app. simpl. split; [reflexivity | lia].
    + exists [LogTx i gas (elapsed net (List.length (sent st)))].
      split; [unfold accounted; simpl; repeat split; lia |].
      cbn [sent]. rewrite length_app. simpl. split; [reflexivity | lia].
  - destruct (sendSignedTransaction net (List.length (sent st)) tx)
      as [e | gas] eqn:Hsend.
    + set (st1 := mkState (totalGas st) (latencies st) (blockCalls st)
                    (sent st ++ [tx])%list (console st)).
      set (st2 := snd (log (LogRetry i num) st1)).
      assert (Hstep :
                retry_loop (attempt net tx i)
                  (fun _ n => log (LogRetry i n)) (S retries) num errors st
                = retry_loop (attempt net tx i)
                    (fun _ n => log (LogRetry i n)) retries (S num)
                    (errors ++ [e])%list st2).
      { rewrite retry_loop_succ. unfold attempt at 1. now rewrite Hsend. }
      rewrite Hstep.
      destruct (IH (S num) (errors ++ [e])%list st2) as (extra & Hacc & Hres).
      exists (LogRetry i num :: extra). split.
      * change (LogRetry i num :: extra)
          with ([LogRetry i num] ++ extra)%list.
        apply accounted_trans with st2; [| exact Hacc].
        subst st2 st1. unfold accounted. simpl.
        repeat split; [lia | now rewrite app_nil_r].
      * assert (Hlen : List.length (sent st2) = S (List.length (sent st))).
        { subst st2 st1. simpl. rewrite length_app. simpl. lia. }
        change (count_tx (LogRetry i num :: extra)) with (count_tx extra).
        destruct (fst (retry_loop _ _ retries (S num) _ st2));
          destruct Hres as (Hcount & Hsent); simpl List.length;
          split; try assumption; lia.
    + rewrite retry_loop_succ. unfold attempt. rewrite Hsend. cbn [fst snd].
      exists [LogTx i gas (elapsed net (List.length (sent st)))].
      split; [unfold accounted; simpl; repeat split; lia |].
      cbn [sent]. rewrite length_app. simpl. split; [reflexivity | lia].
Qed.

Lemma retry_accounted (tx : txData) (i : JS.value) (retries : nat) :
  forall (num : nat) (st : state),
    let res :=
      retry (attempt net tx i) (fun _ n => log (LogRetry i n)) retries num st
    in
    exists extra : list line,
      accounted st (snd res) extra /\
      match fst res with
      | inr _ =>
          count_tx extra = 1%nat /\
          List.length (sent (snd res))
          = (List.length (sent st) + List.length extra)%nat
      | inl _ =>
          count_tx extra = 0%nat /\
          List.length (sent (snd res))
          = (List.length (sent st) + List.length extra + 1)%nat
      end.
Proof. intros num st. exact (retry_loop_accounted tx i retries num [] st). Qed.

Lemma sendPacked_accounted (packed : string) (i : JS.value) (nonce : Z)
    (st : state) :
  let res := sendPacked net packed i nonce st in
  exists extra : list line,
    accounted st (snd res) extra /\
    (blockCalls (snd res) <= S (blockCalls st))%nat /\
    match fst res with
    | inr _ =>
        count_tx extra = 1%nat /\
        List.length (sent (snd res))
        = (List.length (sent st) + List.length extra)%nat
    | inl _ =>
        count_tx extra = 0%nat /\
        (List.length (sent st) + List.length extra
         <= List.length (sent (snd res))
         <= List.length (sent st) + List.length extra + 1)%nat
    end.
Proof.
  cbn zeta. rewrite sendPacked_unfold.
  destruct (encodeABI net i packed) as [e | encoded].
  { exists []. cbn [fst snd]. split; [now apply accounted_nil |].
    simpl. split; [lia | split; [reflexivity | lia]]. }
  destruct (getBlock net (blockCalls st)) as [e | v].
  { exists []. cbn [fst snd]. split; [now apply accounted_nil |].
    simpl. split; [lia | split; [reflexivity | lia]]. }
  destruct (JS.to_bigint v) as [e | base].
  { exists []. cbn [fst snd]. split; [now apply accounted_nil |].
    simpl. split; [lia | split; [reflexivity | lia]]. }
  destruct (retry_accounted (build_tx net encoded base nonce) i 3 1
              (after_fetch st)) as (extra & Hacc & Hres).
  destruct (retry_attempt_spec net (build_tx net encoded base nonce) i 3 1
              (after_fetch st)) as (k & _ & _ & Hb & _).
  exists extra. split; [exact Hacc |]. split.
  - rewrite Hb. simpl. lia.
  - destruct (fst (retry _ _ 3%nat 1%nat (after_fetch st)));
      destruct Hres as (Hcount & Hsent);
      change (sent (after_fetch st)) with (sent st) in Hsent;
      split; try assumption; lia.
Qed.

Lemma main_loop_accounted (stats : list PlayerStat) :
  forall (nonce : Z) (st : state),
    let res := main_loop net stats nonce st in
    exists extra : list line,
      accounted st (snd res) extra /\
      (count_tx extra <= List.length (filter present stats))%nat /\
      (blockCalls (snd res)
       <= blockCalls st + List.length (filter present stats))%nat /\
      (List.length (sent st) + List.length extra
       <= List.length (sent (snd res))
       <= List.length (sent st) + List.length extra + 1)%nat /\
      (forall n,
          fst res = inr n ->
          count_tx extra = List.length (filter present stats) /\
          List.length (sent (snd res))
          = (List.length (sent st) + List.length extra)%nat).
Proof.
  induction stats as [| p rest IH]; intros nonce st; cbn zeta.
  - exists []. unfold count_tx. simpl. split; [now apply accounted_nil |].
    split; [lia | split; [lia | split; [lia |]]].
    intros n _. split; lia.
  - rewrite main_loop_cons.
    assert (Hfilter : List.length (filter present (p :: rest))
                      = ((if JS.is_undefined (goles p) then 0 else 1)
                         + List.length (filter present rest))%nat).
    { simpl filter. unfold present at 1.
      destruct (JS.is_undefined (goles p)); reflexivity. }
    rewrite Hfilter. clear Hfilter.
    destruct (JS.is_undefined (goles p)).
    { apply IH. }
    destruct (pack32 p) as [e | packed].
    { exists []. unfold count_tx. simpl. split; [now apply accounted_nil |].
      split; [lia | split; [lia | split; [lia |]]].
      intros n Hn. discriminate Hn. }
    destruct (sendPacked_accounted packed (id p) nonce st)
      as (extra1 & Hacc1 & Hb1 & Hres1).
    destruct (sendPacked net packed (id p) nonce st) as [[e | gas] st1];
      cbn [fst snd] in Hacc1, Hb1, Hres1; destruct Hres1 as (Hcount1 & Hsent1).
    + exists extra1. cbn [fst snd]. split; [exact Hacc1 |].
      split; [lia | split; [lia | split; [lia |]]].
      intros n Hn. discriminate Hn.
    + destruct (IH (nonce + 1) st1) as (extra2 & Hacc2 & Hc2 & Hb2 & Hs2 & Hok2).
      exists (extra1 ++ extra2)%list.
      split; [now apply accounted_trans with st1 |].
      rewrite count_tx_app, length_app.
      split; [lia | split; [lia | split; [lia |]]].
      intros n Hn. destruct (Hok2 n Hn) as (Hc2' & Hs2'). lia.
Qed.

End Accounting.

(** X8: in every run of the loop, complete or aborted, the metrics grow by
    exactly what the per-record lines written to the console show: the gas
    total by the sum of their gas figures and the latencies by their times,
    in order.  There is at most one such line per record with goles and, when
    the loop completes, exactly one; then every request sent has its line, the
    record's or a retry's. *)
Theorem metrics_match_log (net : network) (stats : list PlayerStat)
    (nonce : Z) (st : state) :
  let res := main_loop net stats nonce st in
  exists extra : list line,
    console (snd res) = (console st ++ extra)%list /\
    totalGas (snd res) = totalGas st + gas_logged extra /\
    latencies (snd res) = (latencies st ++ latencies_logged extra)%list /\
    (count_tx extra <= List.length (filter present stats))%nat /\
    (forall n,
        fst res = inr n ->
        count_tx extra = List.length (filter present stats) /\
        List.length (sent (snd res))
        = (List.length (sent st) + List.length extra)%nat).
Proof.
  cbn zeta.
  destruct (main_loop_accounted net stats nonce st)
    as (extra & (Hc & Hg & Hl) & Hcount & _ & _ & Hok).
  exists extra. auto.
Qed.

Section Payloads.

Variable net : network.

Lemma filter_present_cons (p : PlayerStat) (rest : list PlayerStat) :
  filter present (p :: rest) =
  if JS.is_undefined (goles p) then filter present rest
  else p :: filter present rest.
Proof.
  simpl. unfold present at 1. now destruct (JS.is_undefined (goles p)).
Qed.

(** The requests of a run, matched with the records they come from. *)
Lemma main_loop_payloads (stats : list PlayerStat) :
  forall (nonce : Z) (st : state),
    let res := main_loop net stats nonce st in
    exists (groups : list (txData * nat)) (submitted pending : list PlayerStat),
      sent (snd res) = (sent st ++ expand groups)%list /\
      filter present stats = (submitted ++ pending)%list /\
      Forall2 (carries net) groups submitted /\
      (forall n, fst res = inr n -> pending = []).
Proof.
  induction stats as [| p rest IH]; intros nonce st; cbn zeta.
  - exists [], [], []. simpl. rewrite app_nil_r. repeat split. constructor.
  - rewrite main_loop_cons, filter_present_cons.
    destruct (JS.is_undefined (goles p)).
    { apply IH. }
    destruct (pack32 p) as [e | packed] eqn:Hpack.
    { exists [], [], (p :: filter present rest). simpl. rewrite app_nil_r.
      repeat split; [constructor | discriminate]. }
    pose proof (sendPacked_spec net packed (id p) nonce st) as Hsp.
    cbn zeta in Hsp.
    destruct (sendPacked net packed (id p) nonce st) as [[e | gas] st1];
      cbn [fst snd] in Hsp; destruct Hsp as (_ & Hsp).
    + destruct Hsp as [(_ & _ & Hs) | Hsp].
      * exists [], [], (p :: filter present rest). simpl.
        rewrite app_nil_r. repeat split; [exact Hs | constructor | discriminate].
      * destruct Hsp as (encoded & v & base & k & Henc & _ & _ & Hk & Hs
                         & _ & _).
        exists [(build_tx net encoded base nonce, k)], [p],
          (filter present rest).
        cbn [fst snd]. split; [| split; [reflexivity | split]].
        -- simpl expand. now rewrite app_nil_r.
        -- constructor; [| constructor].
           exists packed. simpl. repeat split; auto; lia.
        -- discriminate.
    + destruct Hsp as [(e' & He' & _) | Hsp]; [discriminate |].
      destruct Hsp as (encoded & v & base & k & Henc & _ & _ & Hk & Hs
                       & _ & _).
      destruct (IH (nonce + 1) st1)
        as (groups & submitted & pending & Hs' & Hf & Hall & Hok).
      exists ((build_tx net encoded base nonce, k) :: groups),
        (p :: submitted), pending.
      split; [| split; [| split]].
      * rewrite Hs', Hs. simpl expand. now rewrite <- app_assoc.
      * simpl. now rewrite Hf.
      * constructor; [| exact Hall].
        exists packed. simpl. repeat split; auto; lia.
      * exact Hok.
Qed.

Lemma expand_length (groups : list (txData * nat))
    (submitted : list PlayerStat) :
  Forall2 (carries net) groups submitted ->
  (List.length submitted <= List.length (expand groups)
   <= 4 * List.length submitted)%nat.
Proof.
  induction 1 as [| g p groups submitted Hg _ IH]; simpl.
  - lia.
  - destruct Hg as (_ & _ & _ & _ & _ & Hk).
    rewrite length_app, repeat_length. lia.
Qed.

End Payloads.

(** X9: every request a run sends goes from the oracle account to the
    league contract and carries the encoded call for one record of the input:
    the requests, grouped by record, follow the records that have a goles
    field in input order, each with the id and the packed word of its record;
    when the loop completes no such record is left out. *)
Theorem requests_carry_records (net : network) (stats : list PlayerStat)
    (nonce : Z) (st : state) :
  let res := main_loop net stats nonce st in
  exists (groups : list (txData * nat)) (submitted pending : list PlayerStat),
    sent (snd res) = (sent st ++ expand groups)%list /\
    filter present stats = (submitted ++ pending)%list /\
    Forall2 (carries net) groups submitted /\
    (forall n, fst res = inr n -> pending = []).
Proof. apply main_loop_payloads. Qed.

(** X10: a run sends at most four requests and makes at most one query of
    the pending block per record that has a goles field; when the loop
    completes it has sent at least one request and made exactly one query per
    such record. *)
Theorem traffic_bounds (net : network) (stats : list PlayerStat)
    (nonce : Z) (st : state) :
  let res := main_loop net stats nonce st in
  let records := List.length (filter present stats) in
  (List.length (sent (snd res)) <= List.length (sent st) + 4 * records)%nat /\
  (blockCalls (snd res) <= blockCalls st + records)%nat /\
  (forall n,
      fst res = inr n ->
      (List.length (sent st) + records <= List.length (sent (snd res)))%nat /\
      blockCalls (snd res) = (blockCalls st + records)%nat).
Proof.
  cbn zeta.
  destruct (main_loop_payloads net stats nonce st)
    as (groups & submitted & pending & Hs & Hf & Hall & Hok).
  destruct (main_loop_accounted net stats nonce st)
    as (_ & _ & _ & Hb & _ & _).
  pose proof (expand_length net groups submitted Hall) as Hlen.
  rewrite Hs, Hf, !length_app.
  split; [lia | split].
  - rewrite Hf, length_app in Hb. exact Hb.
  - intros n Hn. pose proof (Hok n Hn) as Hp. subst pending.
    destruct (main_loop_trace net stats nonce st)
      as (groups' & _ & _ & _ & _ & Hok').
    destruct (Hok' n Hn) as (_ & Hlen' & Hb').
    rewrite Hf, length_app in Hlen'. simpl in *. lia.
Qed.

(** X11: when no record has a goles field, and so on the empty input, the
    run asks nothing of the network and leaves nonce and metrics as they
    were; the summary still counts every record, and on the empty input both
    averages are quotients by zero. *)
Theorem no_goles_no_traffic (net : network) (stats : list PlayerStat)
    (nonce : Z) (st : state) :
  filter present stats = [] ->
  main_loop net stats nonce st = (inr nonce, st) /\
  main net stats nonce st =
    (inr tt,
     mkState (totalGas st) (latencies st) (blockCalls st) (sent st)
       (console st ++
        [LogSummary
           (mkSummary (List.length stats) (totalGas st)
              (divide (totalGas st) (List.length stats))
              (divide (fold_left Z.add (latencies st) 0)
                 (List.length stats)))])%list) /\
  (stats = [] ->
   main net stats nonce st =
     (inr tt,
      mkState (totalGas st) (latencies st) (blockCalls st) (sent st)
        (console st ++ [LogSummary (mkSummary 0 (totalGas st) None None)])%list)).
Proof.
  intros Hnone.
  assert (Hloop : main_loop net stats nonce st = (inr nonce, st)).
  { induction stats as [| p rest IH]; [reflexivity |].
    rewrite main_loop_cons. rewrite filter_present_cons in Hnone.
    destruct (JS.is_undefined (goles p)); [now apply IH | discriminate]. }
  assert (Hmain : main net stats nonce st =
                  log (LogSummary (summarize st (List.length stats))) st).
  { unfold main, bind. now rewrite Hloop. }
  split; [exact Hloop | split; [exact Hmain |]].
  intros ->. exact Hmain.
Qed.

Lemma no_goles_no_traffic_witness :
  filter present [no_goles; no_goles] = [] /\
  main dead_net [no_goles; no_goles] 5 initial_state =
    (inr tt,
     mkState 0 [] 0 []
       [LogSummary (mkSummary 2 0 (Some (0 # 2)) (Some (0 # 2)))]).
Proof.
  split; [reflexivity |].
  destruct (no_goles_no_traffic dead_net [no_goles; no_goles] 5 initial_state
              eq_refl) as (_ & Hmain & _).
  exact Hmain.
Defined.

(** * Part five: the summary *)

(** X13: when the script runs to its end from fresh metrics, the console
    holds the lines of the loop followed by one summary, and the summary
    agrees with those lines: its gas total is the sum of the gas figures of
    the per-record lines, there is one such line per record with goles, and
    both averages divide the logged totals by the number of all records of the
    input. *)
Theorem summary_matches_lines (net : network) (stats : list PlayerStat)
    (nonce : Z) (st st' : state) :
  totalGas st = 0 -> latencies st = [] ->
  main net stats nonce st = (inr tt, st') ->
  exists extra : list line,
    console st' =
      (console st ++ extra ++
       [LogSummary
          (mkSummary (List.length stats) (gas_logged extra)
             (divide (gas_logged extra) (List.length stats))
             (divide (fold_left Z.add (latencies_logged extra) 0)
                (List.length stats)))])%list /\
    count_tx extra = List.length (filter present stats) /\
    forallb (fun l => negb (is_summary l)) extra = true.
Proof.
  intros Hgas Hlat Hmain.
  destruct (main_loop_accounted net stats nonce st)
    as (extra & (Hc & Hg & Hl) & _ & _ & _ & Hok).
  destruct (main_loop_trace net stats nonce st)
    as (_ & _ & _ & _ & (extra' & Hc' & Hquiet) & _).
  unfold main, bind in Hmain.
  destruct (main_loop net stats nonce st) as [[e | n] s] eqn:Hloop;
    [discriminate |].
  cbn [fst snd] in Hc, Hg, Hl, Hok, Hc'.
  assert (extra' = extra) as ->.
  { rewrite Hc in Hc'. now apply app_inv_head in Hc'. }
  unfold log, summarize in Hmain. injection Hmain as <-.
  exists extra. cbn [console]. split; [| split].
  - rewrite Hc, Hg, Hl, Hgas, Hlat, <- app_assoc. reflexivity.
  - now destruct (Hok n eq_refl).
  - exact Hquiet.
Qed.

Lemma summary_matches_lines_witness :
  exists extra : list line,
    console
      (snd (main flaky_net [zero_stat; no_goles; zero_stat] 5 initial_state)) =
      ([] ++ extra ++
       [LogSummary
          (mkSummary 3 (gas_logged extra) (divide (gas_logged extra) 3)
             (divide (fold_left Z.add (latencies_logged extra) 0) 3))])%list /\
    count_tx extra = 2%nat /\
    forallb (fun l => negb (is_summary l)) extra = true.
Proof.
  apply (summary_matches_lines flaky_net [zero_stat; no_goles; zero_stat] 5
           initial_state
           (snd (main flaky_net [zero_stat; no_goles; zero_stat] 5
                   initial_state))); reflexivity.
Defined.
